(** * Filtered (PSF-matched) flux: src/flux/FilteredFlux.cc

    A shallow embedding of [FilteredFlux::_apply] and of the objects it
    touches, followed by the properties of the measurement that the
    specification states about it.

    Conventions of the embedding.

    - A C++ [double] is a primitive IEEE-754 binary64 [float]; every
      arithmetic operation of the source is the corresponding rounded
      operation, so [1.0 / 0.0] is [infinity] and raises nothing.
    - A C++ [int] is a [Z].  Signed overflow is undefined in C++, so no
      wrap-around is written out; kernel centres and image origins stay
      far from the ends of the [int] range.
    - The mutable [SourceRecord] is a finite map from field keys to field
      values; [source.set(key, v)] is a map insertion.
    - A C++ exception is the [Throw] branch of [Except]; the record
      mutated before the exception keeps its contents, as in C++.
    - The functions of the image library (afw) that [_apply] calls are not
      part of this repository.  [_apply] is written against the interface
      [Afw]; the general theorems hold for every implementation of it.
      [SpecAfw] is one implementation, modelled from the specification,
      which is used to run the code on concrete exposures.
    - On line 145 the source takes the locator from [inImage], a name
      that is not declared; the only masked image in scope is [mimage],
      and the locator is taken from it here.
    - The two [indexToPosition] calls of lines 104-107 are the two
      arguments of one constructor call; C++ leaves their order
      unspecified.  [_apply] takes the order as a parameter, and the
      theorems hold for both orders. *)

From Stdlib Require Import ZArith List Floats Uint63 Bool Lia.
From stdpp Require Import base option list gmap strings.

Local Open Scope Z_scope.

(** ** Exceptions *)

Inductive Exception : Type :=
| ConfigurationError
| ComputationError
| BoundsError
| RuntimeError (what : string).

Inductive Except (A : Type) : Type :=
| Ok (a : A)
| Throw (e : Exception).
Arguments Ok {A} a.
Arguments Throw {A} e.

(** ** Geometry and images *)

Inductive xOrY : Type := X | Y.

Record Point2D : Type := mkPoint2D { getX : float; getY : float }.

Record Point2I : Type := mkPoint2I { getXI : Z; getYI : Z }.

(** [Point2I - Extent2I] *)
Definition Point2I_sub (p e : Point2I) : Point2I :=
  mkPoint2I (getXI p - getXI e) (getYI p - getYI e).

(** [MaskedImage::SinglePixel]: the image value and its variance, both
    already promoted to [double] (the promotion of a [float] pixel is
    exact).  The mask plane is never read by [_apply]. *)
Record MaskedPixel : Type := mkPixel { image : float; variance : float }.

(** An [Image<double>] holding kernel weights: a list of rows. *)
Definition KernelImage : Type := list (list float).

(** A masked image: rows of pixels and the integer origin [XY0] of the
    array in the parent frame. *)
Record MaskedImage : Type := mkMaskedImage {
  getXY0 : Point2I;
  pixels : list (list MaskedPixel)
}.

(** ** Kernels *)

(** The kernel a PSF returns for a point.  [k_computeImage doNormalize]
    fills an image of the kernel's dimensions. *)
Record Kernel : Type := mkKernel {
  getDimensions : Z * Z;
  k_computeImage : bool -> Except KernelImage
}.

(** [afw::detection::Psf]: only [getLocalKernel] is used. *)
Record Psf : Type := mkPsf {
  getLocalKernel : Point2D -> Except Kernel
}.

(** [Exposure<PixelT>].  The doc string of the algorithm requires the
    exposure to contain a PSF, so [getPsf] is not a null pointer. *)
Record Exposure : Type := mkExposure {
  getMaskedImage : MaskedImage;
  getPsf : Psf
}.

(** A one-dimensional kernel function: parameter (the fractional
    offset), then the tap position relative to the kernel centre. *)
Definition Function1 : Type := float -> Z -> float.

(** The state of a [SeparableKernel] object: dimensions, declared centre,
    the two kernel parameters and the function of its family. *)
Record SeparableKernel : Type := mkSeparableKernel {
  getWidth : Z;
  getHeight : Z;
  getCtrX : Z;
  getCtrY : Z;
  getKernelParameters : float * float;
  kernelFunction : Function1
}.

Definition setCtrX (k : SeparableKernel) (c : Z) : SeparableKernel :=
  mkSeparableKernel (getWidth k) (getHeight k) c (getCtrY k)
                    (getKernelParameters k) (kernelFunction k).

Definition setCtrY (k : SeparableKernel) (c : Z) : SeparableKernel :=
  mkSeparableKernel (getWidth k) (getHeight k) (getCtrX k) c
                    (getKernelParameters k) (kernelFunction k).

Definition setKernelParameters (k : SeparableKernel) (p : float * float)
  : SeparableKernel :=
  mkSeparableKernel (getWidth k) (getHeight k) (getCtrX k) (getCtrY k)
                    p (kernelFunction k).

(** [Kernel::getCtr] *)
Definition getCtr (k : SeparableKernel) : Point2I :=
  mkPoint2I (getCtrX k) (getCtrY k).

(** ** The source record and the algorithm object *)

Definition Key : Type := string.

Inductive FieldValue : Type :=
| FlagV (b : bool)
| DoubleV (d : float).

Abbreviation SourceRecord := (gmap string FieldValue).

(** [FluxAlgorithm::getKeys()]: the three output slots. *)
Record FluxKeys : Type := mkFluxKeys { meas : Key; err : Key; flag : Key }.

Record FilteredFluxControl : Type := mkControl { warpingKernelName : string }.

Record FilteredFlux : Type := mkFilteredFlux {
  getControl : FilteredFluxControl;
  getKeys : FluxKeys
}.

(** ** Events

    What a call does, in order: the writes to the source record and the
    calls into the PSF and the image library. *)
Inductive Event : Type :=
| EvSet (k : Key) (v : FieldValue)
| EvPositionToIndex (pos : float) (xy : xOrY)
| EvIndexToPosition (ind : Z) (xy : xOrY)
| EvGetLocalKernel (p : Point2D)
| EvPsfComputeImage (doNormalize : bool)
| EvMakeWarpingKernel (name : string)
| EvComputeImage (k : SeparableKernel) (doNormalize : bool)
| EvConvolveAtAPoint (x y : Z) (kwidth kheight : Z).

(** The events that read pixel data of the exposure's image. *)
Definition readsPixels (e : Event) : bool :=
  match e with EvConvolveAtAPoint _ _ _ _ => true | _ => false end.

(** The key an event writes, if it is a write. *)
Definition writtenKey (e : Event) : option Key :=
  match e with EvSet k _ => Some k | _ => None end.

(** ** The state of a call and its monad

    [_apply] receives three references.  The world holds the objects they
    refer to, and the trace of the events so far (oldest first). *)
Record World : Type := mkWorld {
  source : SourceRecord;
  exposure : Exposure;
  center : Point2D;
  trace : list Event
}.

Definition M (A : Type) : Type := World -> Except A * World.

Definition ret {A} (a : A) : M A := fun w => (Ok a, w).

Definition bind {A B} (m : M A) (f : A -> M B) : M B :=
  fun w => match m w with
           | (Ok a, w') => f a w'
           | (Throw e, w') => (Throw e, w')
           end.

Notation "'do' x <- m ; k" := (bind m (fun x => k))
  (at level 10, x name, m at level 100, k at level 200).
Notation "m ;;; k" := (bind m (fun _ => k))
  (at level 100, k at level 200, right associativity).

Definition log (e : Event) (w : World) : World :=
  match w with
  | mkWorld src exp ctr t => mkWorld src exp ctr (t ++ [e])
  end.

(** [source.set(key, v)] *)
Definition set (k : Key) (v : FieldValue) : M unit :=
  fun w => match w with
           | mkWorld src exp ctr t =>
               (Ok tt, mkWorld (<[k := v]> src) exp ctr (t ++ [EvSet k v]))
           end.

(** The two [const &] arguments. *)
Definition theExposure : M Exposure := fun w => (Ok (exposure w), w).
Definition theCenter : M Point2D := fun w => (Ok (center w), w).

(** A call out of [_apply]: the event is recorded, then the callee
    returns or throws. *)
Definition call {A} (e : Event) (r : Except A) : M A :=
  fun w => (r, log e w).

(** ** The image library interface *)

Class Afw : Type := {
  (** [ImageBase::positionToIndex(pos, xy)]: index and fractional part *)
  positionToIndex : MaskedImage -> float -> xOrY -> Except (Z * float);
  (** [ImageBase::indexToPosition(ind, xy)] *)
  indexToPosition : MaskedImage -> Z -> xOrY -> Except float;
  (** [afw::math::makeWarpingKernel(name)] *)
  makeWarpingKernel : string -> Except SeparableKernel;
  (** [SeparableKernel::computeImage(image, doNormalize)] *)
  computeImage : SeparableKernel -> bool -> Except KernelImage;
  (** [convolveAtAPoint(imageLocator, kernelLocator, kwidth, kheight)],
      the image locator being [xy_at(x, y)] of the masked image and the
      kernel locator [xy_at(0, 0)] of the kernel image *)
  convolveAtAPoint :
    MaskedImage -> Z -> Z -> KernelImage -> Z -> Z -> Except MaskedPixel
}.

(** ** [FilteredFlux::_apply]

    The body follows the source statement by statement; the comments
    give the lines.  The warping kernel is a mutable object in the
    source: here the kernel the factory returns is
    [warpingKernelPtr0] and the kernel after [setCtrX], [setCtrY] and
    [setKernelParameters] is [warpingKernelPtr]. *)

(** Lines 111-117: the sum of the squares of the cells, row by row. *)
Definition psfSqSumOf (psfImage : KernelImage) : float :=
  fold_left
    (fun acc row => fold_left (fun a v => (a + v * v)%float) row acc)
    psfImage 0%float.

(** Lines 128-137: the parity shift of the declared centre, then the
    kernel parameters. *)
Definition shiftAndSetParameters (k : SeparableKernel) (dKerX dKerY : float)
  : SeparableKernel :=
  let k1 := if (dKerX <? 0)%float then setCtrX k (getCtrX k + 1) else k in
  let k2 := if (dKerY <? 0)%float then setCtrY k1 (getCtrY k1 + 1) else k1 in
  setKernelParameters k2 (dKerX, dKerY).

(** The order in which the two arguments of the constructor of
    [ctrPixPos] (lines 104-107) are evaluated: the language leaves it to
    the compiler. *)
Inductive ArgOrder : Type := XThenY | YThenX.

Section Apply.
Context {afw : Afw}.

(** Lines 105-106: the two arguments, each a call of [indexToPosition],
    evaluated in the order of the compiler. *)
Definition ctrPixPosArgs (order : ArgOrder) (mimage : MaskedImage)
           (xInd yInd : Z) : M (float * float) :=
  match order with
  | XThenY =>
      do x <- call (EvIndexToPosition xInd X)
                   (indexToPosition mimage xInd X) ;
      do y <- call (EvIndexToPosition yInd Y)
                   (indexToPosition mimage yInd Y) ;
      ret (x, y)
  | YThenX =>
      do y <- call (EvIndexToPosition yInd Y)
                   (indexToPosition mimage yInd Y) ;
      do x <- call (EvIndexToPosition xInd X)
                   (indexToPosition mimage xInd X) ;
      ret (x, y)
  end.

Definition _apply (order : ArgOrder) (self : FilteredFlux) : M unit :=
  (* line 92 *)
  set (flag (getKeys self)) (FlagV true) ;;;
  do exposure <- theExposure ;
  do center <- theCenter ;
  (* lines 96-97 *)
  let mimage := getMaskedImage exposure in
  let psfPtr := getPsf exposure in
  (* lines 100-101 *)
  do xCtrPixIndFrac <- call (EvPositionToIndex (getX center) X)
                            (positionToIndex mimage (getX center) X) ;
  do yCtrPixIndFrac <- call (EvPositionToIndex (getY center) Y)
                            (positionToIndex mimage (getY center) Y) ;
  (* lines 104-107 *)
  do ctrPixXY <- ctrPixPosArgs order mimage
                                (fst xCtrPixIndFrac) (fst yCtrPixIndFrac) ;
  let ctrPixPos := mkPoint2D (fst ctrPixXY) (snd ctrPixXY) in
  (* lines 108-110 *)
  do psfKernelPtr <- call (EvGetLocalKernel ctrPixPos)
                          (getLocalKernel psfPtr ctrPixPos) ;
  do psfImage <- call (EvPsfComputeImage true)
                      (k_computeImage psfKernelPtr true) ;
  (* lines 111-118 *)
  let psfSqSum := psfSqSumOf psfImage in
  let weight := (1 / psfSqSum)%float in
  (* lines 125-127 *)
  do warpingKernelPtr0 <-
     call (EvMakeWarpingKernel (warpingKernelName (getControl self)))
          (makeWarpingKernel (warpingKernelName (getControl self))) ;
  (* lines 128-137 *)
  let dKerX := snd xCtrPixIndFrac in
  let dKerY := snd yCtrPixIndFrac in
  let warpingKernelPtr :=
    shiftAndSetParameters warpingKernelPtr0 dKerX dKerY in
  (* lines 138-140 *)
  do warpingKernelImage <- call (EvComputeImage warpingKernelPtr true)
                                (computeImage warpingKernelPtr true) ;
  (* line 144 *)
  let subimMin := Point2I_sub (getXY0 mimage) (getCtr warpingKernelPtr) in
  (* lines 145-147 *)
  do mimageCtrPix <-
     call (EvConvolveAtAPoint (getXI subimMin) (getYI subimMin)
                              (getWidth warpingKernelPtr)
                              (getHeight warpingKernelPtr))
          (convolveAtAPoint mimage (getXI subimMin) (getYI subimMin)
                            warpingKernelImage
                            (getWidth warpingKernelPtr)
                            (getHeight warpingKernelPtr)) ;
  (* lines 149-150 *)
  let flux := (image mimageCtrPix * weight)%float in
  let var := (variance mimageCtrPix * weight * weight)%float in
  (* lines 152-154 *)
  set (meas (getKeys self)) (DoubleV flux) ;;;
  set (err (getKeys self)) (DoubleV var) ;;;
  set (flag (getKeys self)) (FlagV false).

(** One call: [_apply] on the three objects, with an empty trace. *)
Definition run (order : ArgOrder) (self : FilteredFlux)
           (src : SourceRecord) (exp : Exposure) (ctr : Point2D)
  : Except unit * World :=
  _apply order self (mkWorld src exp ctr []).

End Apply.

(** The record after the writes of a sequence of events. *)
Definition replay (r : SourceRecord) (evs : list Event) : SourceRecord :=
  fold_left (fun r e => match e with EvSet k v => <[k := v]> r | _ => r end)
            evs r.

(** ** An implementation of the interface

    Modelled from the spec: the pixel grid mapper (section 4.1), the warp
    kernel builder (section 4.3) and the point convolver (section 4.4).
    These are functions of the image library, which is not part of the
    repository.  The table of the recognised kernel families is a
    parameter. *)
Module SpecAfw.

(** The conversion of an [int] to [double] (exact below 2^53). *)
Definition Z2float (z : Z) : float :=
  if z <? 0 then (- of_uint63 (Uint63.of_Z (- z)))%float
  else of_uint63 (Uint63.of_Z z).

(** [std::floor] followed by the conversion to [int], for a finite
    argument. *)
Definition floorZ (f : float) : option Z :=
  match Prim2SF f with
  | S754_zero _ => Some 0
  | S754_finite s m e =>
      let z := if s then Z.neg m else Z.pos m in
      Some (if 0 <=? e then Z.shiftl z e else Z.shiftr z (- e))
  | _ => None
  end.

(** Modelled from the spec: the position of the centre of the pixel of
    index 0 of an image whose origin is 0 (the "image's pixel-to-position
    convention"). *)
Definition PixelZeroPos : float := 0%float.

(** The origin of the image along an axis. *)
Definition origin (img : MaskedImage) (xy : xOrY) : Z :=
  match xy with
  | X => getXI (getXY0 img)
  | Y => getYI (getXY0 img)
  end.

(** Modelled from the spec: the pixel grid mapper of section 4.1
    ([positionToIndex] of the image library), "round to the nearest pixel
    center, with the fraction representing the signed residual distance
    from that pixel center", the fraction being in [-0.5, 0.5) and the
    index being relative to the origin of the image. *)
Definition positionToIndex (img : MaskedImage) (pos : float) (xy : xOrY)
  : Except (Z * float) :=
  let fullIndex := (pos - PixelZeroPos - Z2float (origin img xy))%float in
  match floorZ (fullIndex + 0.5)%float with
  | Some roundedIndex =>
      Ok (roundedIndex, (fullIndex - Z2float roundedIndex)%float)
  | None => Throw (RuntimeError "position is not finite")
  end.

(** Modelled from the spec: the inverse mapping of section 4.5, step 3
    ([indexToPosition] of the image library), from an index to the
    position of the centre of that pixel. *)
Definition indexToPosition (img : MaskedImage) (ind : Z) (xy : xOrY)
  : Except float :=
  Ok (Z2float ind + PixelZeroPos + Z2float (origin img xy))%float.

(** A family of resampling kernels: its (even) number of taps and its
    one-dimensional function. *)
Record WarpFamily : Type := mkWarpFamily {
  taps : Z;
  function1 : Function1
}.

(** Modelled from the spec: the family named "bilinear" in section 6,
    linear interpolation between two taps: weight [1 - |x - d|] at tap
    position [x] for the fractional offset [d]. *)
Definition bilinearFunction : Function1 :=
  fun d x => (1 - abs (Z2float x - d))%float.

Definition bilinear : WarpFamily := mkWarpFamily 2 bilinearFunction.

(** The sum of all the cells of a kernel image. *)
Definition imageSum (img : KernelImage) : float :=
  fold_left (fun acc row => fold_left (fun a v => (a + v)%float) row acc)
            img 0%float.

(** Modelled from the spec: the weight image of section 4.3
    ([SeparableKernel::computeImage] of the image library), "compute the
    kernel's weight image parameterized by (dx, dy) and normalize it to
    sum to 1"; the cell [(i, j)] is the product of the one-dimensional
    weights at the tap positions [i - ctrX] and [j - ctrY]. *)
Definition computeImage (k : SeparableKernel) (doNormalize : bool)
  : Except KernelImage :=
  let xs := map (fun i => kernelFunction k (fst (getKernelParameters k))
                                         (i - getCtrX k))
                (seqZ 0 (getWidth k)) in
  let ys := map (fun j => kernelFunction k (snd (getKernelParameters k))
                                         (j - getCtrY k))
                (seqZ 0 (getHeight k)) in
  let img := map (fun wy => map (fun wx => (wx * wy)%float) xs) ys in
  if doNormalize
  then let s := imageSum img in
       Ok (map (map (fun v => (v / s)%float)) img)
  else Ok img.

(** The pixel at array index [(x, y)], if it is inside the stored
    bounds. *)
Definition pixelAt (img : MaskedImage) (x y : Z) : option MaskedPixel :=
  if (0 <=? x) && (0 <=? y)
  then match pixels img !! Z.to_nat y with
       | Some row => row !! Z.to_nat x
       | None => None
       end
  else None.

(** The cells of a kernel image with their array indices, row by row. *)
Definition cellsOf (kimg : KernelImage) : list (Z * Z * float) :=
  concat
    (imap (fun j row => imap (fun i v => (Z.of_nat i, Z.of_nat j, v)) row)
          kimg).

(** The image pixels under the kernel cells when kernel cell (0,0) is
    on image cell [(x0, y0)]; [None] when one of them is outside the
    stored bounds. *)
Definition overlap (img : MaskedImage) (x0 y0 : Z) (kimg : KernelImage)
  : option (list (float * MaskedPixel)) :=
  mapM (fun c : Z * Z * float =>
          match pixelAt img (x0 + fst (fst c)) (y0 + snd (fst c)) with
          | Some p => Some (snd c, p)
          | None => None
          end)
       (cellsOf kimg).

(** The sum of a list of doubles, from the left. *)
Definition sumOf (l : list float) : float :=
  fold_left (fun a v => (a + v)%float) l 0%float.

(** Modelled from the spec: the point convolver of section 4.4
    ([convolveAtAPoint] of the image library),
    [value = sum_i kernelWeight_i * pixelValue_i] and
    [variance = sum_i kernelWeight_i^2 * pixelVariance_i] over the
    overlapping cells; a footprint that extends past the bounds of the
    plane is a BoundsError.  The kernel image has the width and the
    height that are passed with it. *)
Definition convolveAtAPoint (img : MaskedImage) (x0 y0 : Z)
           (kimg : KernelImage) (kwidth kheight : Z) : Except MaskedPixel :=
  match overlap img x0 y0 kimg with
  | Some cells =>
      Ok (mkPixel
            (sumOf (map (fun c => (fst c * image (snd c))%float) cells))
            (sumOf (map (fun c => (fst c * fst c * variance (snd c))%float)
                        cells)))
  | None => Throw BoundsError
  end.

Section Families.
Variable families : list (string * WarpFamily).

(** The family registered under a name. *)
Definition findFamily (name : string) : option WarpFamily :=
  match List.find (fun nf => String.eqb (fst nf) name) families with
  | Some nf => Some (snd nf)
  | None => None
  end.

(** Modelled from the spec: the kernel factory of section 4.3
    ([makeWarpingKernel] of the image library); a name that is not in
    the table is a ConfigurationError.  A kernel of [n] taps, [n] even,
    declares its centre at tap [(n - 1) / 2], the left one of the two
    middle taps, so that the peak for an offset in [0, 0.5) lies to the
    right of the centre. *)
Definition makeWarpingKernel (name : string) : Except SeparableKernel :=
  match findFamily name with
  | Some f =>
      Ok (mkSeparableKernel (taps f) (taps f)
                            ((taps f - 1) / 2) ((taps f - 1) / 2)
                            (0%float, 0%float) (function1 f))
  | None => Throw ConfigurationError
  end.

(** The implementation of the interface. *)
Definition specAfw : Afw :=
  Build_Afw positionToIndex indexToPosition makeWarpingKernel
            computeImage convolveAtAPoint.
End Families.

End SpecAfw.

(** The events that are calls, not writes. *)
Definition isCall (e : Event) : Prop := writtenKey e = None.

(** ** The outcome of a call that returns *)

Section Outcome.
Context {afw : Afw}.
Variables (order : ArgOrder) (self : FilteredFlux) (src : SourceRecord)
          (exp : Exposure) (ctr : Point2D).

Let mimage := getMaskedImage exp.
Let keys := getKeys self.
Let name := warpingKernelName (getControl self).

(** The trace of a call that returns, from the values its calls
    returned. *)
Definition successTrace (ix iy : Z) (px py : float) (k : SeparableKernel)
           (flux var : float) : list Event :=
  [EvSet (flag keys) (FlagV true);
   EvPositionToIndex (getX ctr) X;
   EvPositionToIndex (getY ctr) Y] ++
  match order with
  | XThenY => [EvIndexToPosition ix X; EvIndexToPosition iy Y]
  | YThenX => [EvIndexToPosition iy Y; EvIndexToPosition ix X]
  end ++
  [EvGetLocalKernel (mkPoint2D px py);
   EvPsfComputeImage true;
   EvMakeWarpingKernel name;
   EvComputeImage k true;
   EvConvolveAtAPoint (getXI (getXY0 mimage) - getCtrX k)
                      (getYI (getXY0 mimage) - getCtrY k)
                      (getWidth k) (getHeight k);
   EvSet (meas keys) (DoubleV flux);
   EvSet (err keys) (DoubleV var);
   EvSet (flag keys) (FlagV false)].

(** The record a call that returns leaves. *)
Definition successRecord (flux var : float) : SourceRecord :=
  <[flag keys := FlagV false]>
    (<[err keys := DoubleV var]>
       (<[meas keys := DoubleV flux]>
          (<[flag keys := FlagV true]> src))).

(** The calls of a run that returned, with their results. *)
Record Returned : Type := mkReturned {
  r_ix : Z; r_fx : float;
  r_iy : Z; r_fy : float;
  r_px : float; r_py : float;
  r_kern : Kernel;
  r_psfImage : KernelImage;
  r_kernel0 : SeparableKernel;
  r_warpImage : KernelImage;
  r_pixel : MaskedPixel
}.

Definition r_kernel (r : Returned) : SeparableKernel :=
  shiftAndSetParameters (r_kernel0 r) (r_fx r) (r_fy r).

Definition r_weight (r : Returned) : float :=
  (1 / psfSqSumOf (r_psfImage r))%float.

Definition returnedBy (r : Returned) : Prop :=
  positionToIndex mimage (getX ctr) X = Ok (r_ix r, r_fx r) /\
  positionToIndex mimage (getY ctr) Y = Ok (r_iy r, r_fy r) /\
  indexToPosition mimage (r_ix r) X = Ok (r_px r) /\
  indexToPosition mimage (r_iy r) Y = Ok (r_py r) /\
  getLocalKernel (getPsf exp) (mkPoint2D (r_px r) (r_py r)) = Ok (r_kern r) /\
  k_computeImage (r_kern r) true = Ok (r_psfImage r) /\
  makeWarpingKernel name = Ok (r_kernel0 r) /\
  computeImage (r_kernel r) true = Ok (r_warpImage r) /\
  convolveAtAPoint mimage
    (getXI (getXY0 mimage) - getCtrX (r_kernel r))
    (getYI (getXY0 mimage) - getCtrY (r_kernel r))
    (r_warpImage r) (getWidth (r_kernel r)) (getHeight (r_kernel r))
  = Ok (r_pixel r).

Definition outcomeOf (r : Returned) : Except unit * World :=
  let flux := (image (r_pixel r) * r_weight r)%float in
  let var := (variance (r_pixel r) * r_weight r * r_weight r)%float in
  (Ok tt,
   mkWorld (successRecord flux var) exp ctr
           (successTrace (r_ix r) (r_iy r) (r_px r) (r_py r) (r_kernel r)
                         flux var)).

End Outcome.

(** ** The words of the specification on the weight *)

(** The sum of a list of doubles, accumulated from the left. *)
Definition sumList (l : list float) : float :=
  fold_left (fun a v => (a + v)%float) l 0%float.

(** Follows the spec's words (section 4.2), not the source: "compute
    [s = sum(weight_i^2)] over all kernel cells", the cells being taken
    row by row. *)
Definition sumOfSquares (img : KernelImage) : float :=
  sumList (map (fun w => (w * w)%float) (concat img)).

(** ** The words of the specification on the point convolution *)

(** Follows the spec's words (section 4.4), not the model of the
    convolver: the "overlapping cells" when kernel cell (0,0) is on
    image cell [(x0, y0)].  [cells] has the shape of the kernel image;
    its cell (i, j), column [i] of row [j], pairs the kernel weight at
    (i, j) with the pixel of the image at [(x0 + i, y0 + j)], which is
    inside the stored bounds of the plane. *)
Definition overlapping (img : MaskedImage) (x0 y0 : Z) (kimg : KernelImage)
           (cells : list (list (float * MaskedPixel))) : Prop :=
  map (map fst) cells = kimg /\
  forall (i j : nat) (crow : list (float * MaskedPixel))
         (c : float * MaskedPixel),
    cells !! j = Some crow -> crow !! i = Some c ->
    0 <= x0 + Z.of_nat i /\ 0 <= y0 + Z.of_nat j /\
    exists prow,
      pixels img !! Z.to_nat (y0 + Z.of_nat j) = Some prow /\
      prow !! Z.to_nat (x0 + Z.of_nat i) = Some (snd c).

(** Follows the spec's words (section 4.4): [value] is the sum of
    [kernelWeight_i * pixelValue_i] over the cells, taken row by row. *)
Definition convolvedValue (cells : list (list (float * MaskedPixel)))
  : float :=
  sumList (map (fun c => (fst c * image (snd c))%float) (concat cells)).

(** Follows the spec's words (section 4.4): [variance] is the sum of
    [kernelWeight_i^2 * pixelVariance_i] over the cells, taken row by
    row. *)
Definition convolvedVariance (cells : list (list (float * MaskedPixel)))
  : float :=
  sumList (map (fun c => (fst c * fst c * variance (snd c))%float)
               (concat cells)).

(** A library with the point convolver of section 4.4, its four other
    functions being those of [lib]. *)
Definition withPointConvolver (lib : Afw) : Afw :=
  Build_Afw (@positionToIndex lib) (@indexToPosition lib)
            (@makeWarpingKernel lib) (@computeImage lib)
            SpecAfw.convolveAtAPoint.

(** ** Double arithmetic *)

(** The sign of a value of the IEEE specification ([NaN] has none). *)
Definition hasSign (sx : bool) (x : spec_float) : Prop :=
  match x with
  | S754_zero s | S754_infinity s | S754_finite s _ _ => s = sx
  | S754_nan => True
  end.

(** [sum(PSF^2) == 0], the sum being the one of the specification and
    the comparison that of C++ on [double]. *)
Definition degenerate (psfImage : KernelImage) : Prop :=
  (sumOfSquares psfImage =? 0)%float = true.

(** ** Two sentences of the specification, as they are written *)

Section Stated.
Context {afw : Afw}.
Variables (order : ArgOrder) (self : FilteredFlux) (src : SourceRecord)
          (exp : Exposure) (ctr : Point2D).


(** C8, as stated: an unrecognised name makes the call fail with a
    ConfigurationError, before any pixel is read. *)
Definition unknown_name_is_ConfigurationError : Prop :=
  makeWarpingKernel (warpingKernelName (getControl self))
  = Throw ConfigurationError ->
  fst (run order self src exp ctr) = Throw ConfigurationError /\
  Forall (fun ev => readsPixels ev = false)
         (trace (snd (run order self src exp ctr))).

End Stated.

(** * Concrete exposures

    The scenarios of section 8 of the specification, on the
    implementation [SpecAfw] with the bilinear family registered. *)
Module Scenario.

Definition keys : FluxKeys :=
  mkFluxKeys "flux.filtered" "flux.filtered.err" "flux.filtered.flags".

Definition algorithm (name : string) : FilteredFlux :=
  mkFilteredFlux (mkControl name) keys.

Definition library : Afw := SpecAfw.specAfw [("bilinear", SpecAfw.bilinear)].

(** A 5x5 image with origin (0,0): 0 everywhere except 100 at the
    centre cell (2,2); variance 1 everywhere. *)
Definition image5x5 : MaskedImage :=
  mkMaskedImage (mkPoint2I 0 0)
    (map (fun j : Z =>
            map (fun i : Z =>
                   mkPixel (if (i =? 2) && (j =? 2) then 100%float else 0%float)
                           1%float)
                (seqZ 0 5))
         (seqZ 0 5)).

(** A PSF whose local kernel image is the given one at every point. *)
Definition constantPsf (img : KernelImage) : Psf :=
  mkPsf (fun _ =>
           Ok (mkKernel (Z.of_nat (length (hd [] img)), Z.of_nat (length img))
                        (fun _ => Ok img))).

(** A single unit weight: [sum(PSF^2) = 1]. *)
Definition unitPsf : Psf := constantPsf [[1%float]].

(** A PSF model that cannot be evaluated at the requested point. *)
Definition failingPsf : Psf :=
  mkPsf (fun _ => Throw (RuntimeError "PSF is not defined at this point")).

(** A record with a field of another algorithm and the outputs of an
    earlier, successful measurement. *)
Definition record0 : SourceRecord :=
  <["centroid.x" := DoubleV 2%float]>
    (<["flux.filtered" := DoubleV 42%float]>
       (<["flux.filtered.err" := DoubleV 4%float]>
          (<["flux.filtered.flags" := FlagV false]> ∅))).

(** The centre of the source on the centre of pixel (2,2). *)
Definition atCentre : Point2D := mkPoint2D 2%float 2%float.

(** A quarter of a pixel to the left of the centre of pixel (2,2). *)
Definition leftOfCentre : Point2D := mkPoint2D 1.75%float 2%float.

(** A quarter of a pixel to the right of the centre of pixel (2,2). *)
Definition rightOfCentre : Point2D := mkPoint2D 2.25%float 2%float.

(** A quarter of a pixel beyond the centre of the last pixel (4,4). *)
Definition nearEdge : Point2D := mkPoint2D 4.25%float 4.25%float.

(** The bilinear kernel as the factory returns it. *)
Definition bilinearKernel : SeparableKernel :=
  mkSeparableKernel 2 2 0 0 (0%float, 0%float) SpecAfw.bilinearFunction.

End Scenario.

(** * The order and the errors of the calls *)

(** The kind of an event: which statement of the source it comes from. *)
Inductive EventKind : Type :=
| KSet
| KPositionToIndex
| KIndexToPosition
| KGetLocalKernel
| KPsfComputeImage
| KMakeWarpingKernel
| KComputeImage
| KConvolveAtAPoint.

Definition kindOf (e : Event) : EventKind :=
  match e with
  | EvSet _ _ => KSet
  | EvPositionToIndex _ _ => KPositionToIndex
  | EvIndexToPosition _ _ => KIndexToPosition
  | EvGetLocalKernel _ => KGetLocalKernel
  | EvPsfComputeImage _ => KPsfComputeImage
  | EvMakeWarpingKernel _ => KMakeWarpingKernel
  | EvComputeImage _ _ => KComputeImage
  | EvConvolveAtAPoint _ _ _ _ => KConvolveAtAPoint
  end.

(** The statements of [_apply] that write the record or call out, in
    the order of the source (lines 92, 100, 101, 105, 106, 108, 110,
    125, 139, 146 and 152-154). *)
Definition statementOrder : list EventKind :=
  [KSet; KPositionToIndex; KPositionToIndex; KIndexToPosition;
   KIndexToPosition; KGetLocalKernel; KPsfComputeImage; KMakeWarpingKernel;
   KComputeImage; KConvolveAtAPoint; KSet; KSet; KSet].

Section Thrown.
Context {afw : Afw}.

(** The call that the event [ev] of the trace [t] records threw [e].
    The image of the PSF kernel is computed on the kernel that the PSF
    returned, and the image is convolved with the image of the warping
    kernel that was computed: these are found through the earlier
    events of the trace. *)
Definition thrownBy (exp : Exposure) (t : list Event) (ev : Event)
           (e : Exception) : Prop :=
  match ev with
  | EvSet _ _ => False
  | EvPositionToIndex pos xy =>
      positionToIndex (getMaskedImage exp) pos xy = Throw e
  | EvIndexToPosition ind xy =>
      indexToPosition (getMaskedImage exp) ind xy = Throw e
  | EvGetLocalKernel p => getLocalKernel (getPsf exp) p = Throw e
  | EvPsfComputeImage b =>
      exists p kern,
        In (EvGetLocalKernel p) t /\
        getLocalKernel (getPsf exp) p = Ok kern /\
        k_computeImage kern b = Throw e
  | EvMakeWarpingKernel name => makeWarpingKernel name = Throw e
  | EvComputeImage k b => computeImage k b = Throw e
  | EvConvolveAtAPoint x y w h =>
      exists k wimg,
        In (EvComputeImage k true) t /\
        computeImage k true = Ok wimg /\
        convolveAtAPoint (getMaskedImage exp) x y wimg w h = Throw e
  end.

End Thrown.

(** A double that is the NaN. *)
Definition isNaN (x : float) : Prop := Prim2SF x = S754_nan.

(** A double that is one of the two zeros. *)
Definition isZero (x : float) : Prop := x = 0%float \/ x = (-0)%float.

(** Further kernel images for the scenarios. *)
Module Cases.

(** A kernel image with a NaN in one cell. *)
Definition nanImage : KernelImage :=
  [[0.25%float; 0.25%float]; [nan; 0.25%float]].

Definition nanPsf : Psf := Scenario.constantPsf nanImage.

(** A kernel image of zeros of both signs, with a row without cells. *)
Definition zerosImage : KernelImage :=
  [[0%float; (-0)%float]; []; [(-0)%float]].

(** Modelled from the spec: the normalisation that the PSF kernel's
    [computeImage(image, true)] performs, in the image library (section
    4.2, "normalize the kernel so its weights sum to 1"): every cell is
    divided by the sum of the cells. *)
Definition normalize (raw : KernelImage) : KernelImage :=
  map (map (fun v => (v / SpecAfw.imageSum raw)%float)) raw.

(** A PSF whose local kernel has the given cells at every point; the
    image is normalized on demand. *)
Definition normalizingPsf (raw : KernelImage) : Psf :=
  mkPsf (fun _ =>
           Ok (mkKernel
                 (Z.of_nat (length (hd [] raw)), Z.of_nat (length raw))
                 (fun doNormalize =>
                    Ok (if doNormalize then normalize raw else raw)))).



(** Four cells that are zero: the normalisation divides zero by
    zero. *)
Definition blankImage : KernelImage :=
  [[0%float; 0%float]; [0%float; 0%float]].

Definition blankPsf : Psf := normalizingPsf blankImage.

(** Four equal cells, each 0.25 once normalized. *)
Definition boxImage : KernelImage :=
  [[1%float; 1%float]; [1%float; 1%float]].

Definition boxPsf : Psf := normalizingPsf boxImage.

(** A 5x5 image with origin (0,0) whose pixel (i, j) has the value
    [1 + i + 3 j] and the variance 2. *)
Definition rampImage : MaskedImage :=
  mkMaskedImage (mkPoint2I 0 0)
    (map (fun j : Z =>
            map (fun i : Z =>
                   mkPixel (SpecAfw.Z2float (1 + i + 3 * j)) 2%float)
                (seqZ 0 5))
         (seqZ 0 5)).

(** A quarter of a pixel beyond the centre of pixel (2,2), on both
    axes. *)
Definition offCentre : Point2D := mkPoint2D 2.25%float 2.25%float.

(** The image of the bilinear kernel for the offsets (0, 0). *)
Definition deltaImage : KernelImage :=
  [[1%float; 0%float]; [0%float; 0%float]].

(** The image of the bilinear kernel for the offsets (0.25, 0). *)
Definition rightImage : KernelImage :=
  [[0.75%float; 0.25%float]; [0%float; 0%float]].

End Cases.

(** * Properties *)

(** ** Shape of a call *)

Ltac unfold_run :=
  unfold run, _apply, ctrPixPosArgs, bind, ret, set, call,
    theExposure, theCenter, log;
  cbn [fst snd source exposure center trace app].

Ltac next_call :=
  match goal with
  | |- context [match ?r with Ok _ => _ | Throw _ => _ end] =>
      let E := fresh "E" in
      destruct r eqn:E; cbn [fst snd source exposure center trace app]
  end.

Ltac both_orders :=
  match goal with order : ArgOrder |- _ => destruct order end.

Ltac run_cases := both_orders; unfold_run; repeat next_call.

(** The run, once the grid mapping has returned. *)
Ltac run_past_mapping HX HY HpX HpY :=
  both_orders; unfold_run;
  rewrite HX; cbn [fst snd]; rewrite HY; cbn [fst snd];
  rewrite HpX, HpY; cbn [fst snd source exposure center trace app].

Section Shape.
Context {afw : Afw}.
Variables (order : ArgOrder) (self : FilteredFlux) (src : SourceRecord)
          (exp : Exposure) (ctr : Point2D).

Let keys := getKeys self.

(** A call either throws, having written only [flag := true], or
    returns, having written the flux, its variance and [flag := false]
    after all its calls. *)
Lemma run_shape :
  exists calls, Forall isCall calls /\
    ((exists e,
        run order self src exp ctr =
        (Throw e,
         mkWorld (<[flag keys := FlagV true]> src) exp ctr
                 (EvSet (flag keys) (FlagV true) :: calls)))
     \/
     (exists flux var,
        run order self src exp ctr =
        (Ok tt,
         mkWorld (<[flag keys := FlagV false]>
                    (<[err keys := DoubleV var]>
                       (<[meas keys := DoubleV flux]>
                          (<[flag keys := FlagV true]> src))))
                 exp ctr
                 (EvSet (flag keys) (FlagV true) :: calls ++
                  [EvSet (meas keys) (DoubleV flux);
                   EvSet (err keys) (DoubleV var);
                   EvSet (flag keys) (FlagV false)])))).
Proof.
  subst keys. run_cases;
    try (eexists; split; [ | left; eexists; reflexivity ];
         repeat constructor).
  all: eexists (_ :: _ :: _ :: _ :: _ :: _ :: _ :: _ :: _ :: []).
  all: split; [ | right; do 2 eexists; reflexivity ].
  all: repeat constructor.
Qed.

End Shape.

(** ** Writes to the record *)

Lemma replay_app (r : SourceRecord) (l1 l2 : list Event) :
  replay r (l1 ++ l2) = replay (replay r l1) l2.
Proof. unfold replay. apply fold_left_app. Qed.

Lemma replay_calls (r : SourceRecord) (calls : list Event) :
  Forall isCall calls -> replay r calls = r.
Proof.
  intros H. revert r. induction H as [ | e l He _ IH]; intros r.
  - reflexivity.
  - destruct e; try discriminate He; apply IH.
Qed.

Lemma isCall_prefix (l1 l2 : list Event) :
  Forall isCall (l1 ++ l2) -> Forall isCall l1.
Proof. intros H. apply Forall_app in H. tauto. Qed.

(** After [flag := true], the flag slot does not read [false] until the
    third of the final writes. *)
Lemma flag_not_cleared (r : SourceRecord) (k : FluxKeys) (flux var : float)
      (l post : list Event) :
  [EvSet (meas k) (DoubleV flux); EvSet (err k) (DoubleV var);
   EvSet (flag k) (FlagV false)] = l ++ post ->
  replay (<[flag k := FlagV true]> r) l !! flag k = Some (FlagV false) ->
  post = [].
Proof.
  intros Hl Hr.
  destruct l as [ | e1 [ | e2 [ | e3 [ | e4 l]]]]; simpl in Hl;
    inversion Hl; subst; try reflexivity; exfalso;
    unfold replay in Hr; simpl in Hr;
    repeat (rewrite lookup_insert in Hr; case_decide);
    congruence.
Qed.

Section Protocol.
Context {afw : Afw}.
Variables (order : ArgOrder) (self : FilteredFlux) (src : SourceRecord)
          (exp : Exposure) (ctr : Point2D).

(** The record a call leaves is the record it was given with the
    writes of the trace applied in order. *)
Lemma source_is_replay :
  source (snd (run order self src exp ctr)) =
  replay src (trace (snd (run order self src exp ctr))).
Proof.
  destruct (run_shape order self src exp ctr)
    as (calls & Hc & [(e & ->) | (flux & var & ->)]);
    cbn [fst snd source trace].
  - change (EvSet ?k ?v :: calls) with ([EvSet k v] ++ calls).
    rewrite replay_app, (replay_calls _ calls) by assumption. reflexivity.
  - change (EvSet ?k ?v :: calls ++ ?l) with ([EvSet k v] ++ calls ++ l).
    rewrite !replay_app, (replay_calls _ calls) by assumption. reflexivity.
Qed.

(** C2. Every call begins by writing [flag := true].  A call that
    throws leaves the record it was given with that single write and
    nothing else written.  A call that returns has written, after all
    its calls into the PSF and the image library and as its last three
    events, the flux, the variance and [flag := false].  At no point
    after the first write of a call does the record read
    [flag = false], except at the very end of a call that returned,
    when the flux and the variance have both been written. *)
Theorem failed_flag_discipline :
  let out := run order self src exp ctr in
  let keys := getKeys self in
  (exists rest, trace (snd out) = EvSet (flag keys) (FlagV true) :: rest) /\
  (forall e, fst out = Throw e ->
     source (snd out) = <[flag keys := FlagV true]> src /\
     exists calls, Forall isCall calls /\
       trace (snd out) = EvSet (flag keys) (FlagV true) :: calls) /\
  (fst out = Ok tt ->
     exists calls flux var, Forall isCall calls /\
       trace (snd out) =
         EvSet (flag keys) (FlagV true) :: calls ++
         [EvSet (meas keys) (DoubleV flux);
          EvSet (err keys) (DoubleV var);
          EvSet (flag keys) (FlagV false)] /\
       source (snd out) =
         <[flag keys := FlagV false]>
           (<[err keys := DoubleV var]>
              (<[meas keys := DoubleV flux]>
                 (<[flag keys := FlagV true]> src)))) /\
  (forall pre post, trace (snd out) = pre ++ post -> pre <> [] ->
     replay src pre !! flag keys = Some (FlagV false) ->
     post = [] /\ fst out = Ok tt).
Proof.
  intros out keys. subst out keys.
  destruct (run_shape order self src exp ctr)
    as (calls & Hc & [(e & ->) | (flux & var & ->)]);
    cbn [fst snd source trace].
  - split; [ eexists; reflexivity | ].
    split; [ intros _ _; split; [ reflexivity | eauto ] | ].
    split; [ discriminate | ].
    intros pre post Hpre Hne Hflag. exfalso.
    destruct pre as [ | e0 pre]; [ congruence | ].
    simpl in Hpre. injection Hpre as <- Hcalls. subst calls.
    change (EvSet ?k ?v :: pre) with ([EvSet k v] ++ pre) in Hflag.
    rewrite replay_app, (replay_calls _ pre) in Hflag
      by eauto using isCall_prefix.
    unfold replay in Hflag. simpl in Hflag.
    rewrite lookup_insert_eq in Hflag. discriminate.
  - split; [ eexists; reflexivity | ].
    split; [ discriminate | ].
    split; [ intros _; eauto 6 | ].
    intros pre post Hpre Hne Hflag.
    split; [ | reflexivity ].
    destruct pre as [ | e0 pre]; [ congruence | ].
    simpl in Hpre. injection Hpre as <- Hcalls.
    change (EvSet ?k ?v :: pre) with ([EvSet k v] ++ pre) in Hflag.
    rewrite replay_app in Hflag.
    change (replay src [EvSet ?k ?v]) with (<[k := v]> src) in Hflag.
    symmetry in Hcalls.
    apply app_eq_app in Hcalls as [l [[-> Htail] | [-> Htail]]].
    + rewrite replay_app, (replay_calls _ calls) in Hflag by assumption.
      eapply flag_not_cleared; eauto.
    + exfalso. rewrite (replay_calls _ pre) in Hflag
        by eauto using isCall_prefix.
      rewrite lookup_insert_eq in Hflag. discriminate.
Qed.

(** C10. A call, whether it returns or throws, writes no slot of the
    record other than the three output slots: every other field reads
    as before, every write event is to one of the three keys, and the
    exposure (image, variance and PSF) and the centre a call was given
    are the ones it leaves. *)
Theorem only_output_slots_change (k : Key) :
  k <> flag (getKeys self) ->
  k <> meas (getKeys self) ->
  k <> err (getKeys self) ->
  let out := run order self src exp ctr in
  source (snd out) !! k = src !! k /\
  exposure (snd out) = exp /\
  center (snd out) = ctr /\
  Forall (fun e => forall k', writtenKey e = Some k' ->
                     k' = flag (getKeys self) \/
                     k' = meas (getKeys self) \/
                     k' = err (getKeys self))
         (trace (snd out)).
Proof.
  intros Hf Hm He out. subst out.
  destruct (run_shape order self src exp ctr)
    as (calls & Hc & [(e & ->) | (flux & var & ->)]);
    cbn [fst snd source exposure center trace].
  - rewrite lookup_insert_ne by congruence.
    repeat split.
    constructor.
    + simpl. intros k' [= <-]. auto.
    + eapply Forall_impl; [ exact Hc | ].
      intros ev Hev k' Hk. unfold isCall in Hev. congruence.
  - rewrite !lookup_insert_ne by congruence.
    repeat split.
    constructor.
    + simpl. intros k' [= <-]. auto.
    + apply Forall_app. split.
      * eapply Forall_impl; [ exact Hc | ].
        intros ev Hev k' Hk. unfold isCall in Hev. congruence.
      * repeat (apply List.Forall_cons; [ simpl; intros k' [= <-]; auto | ]).
        apply List.Forall_nil.
Qed.

End Protocol.

(** ** What a call that returns has done *)

Section Inversion.
Context {afw : Afw}.
Variables (order : ArgOrder) (self : FilteredFlux) (src : SourceRecord)
          (exp : Exposure) (ctr : Point2D).

Let mimage := getMaskedImage exp.
Let keys := getKeys self.
Let name := warpingKernelName (getControl self).

(** When every call returns, so does [_apply], with these writes. *)
Lemma run_returns (r : Returned) :
  returnedBy self exp ctr r ->
  run order self src exp ctr = outcomeOf order self src exp ctr r.
Proof.
  intros (HX & HY & HpX & HpY & Hk & Himg & Hmk & Hci & Hconv).
  unfold outcomeOf, successRecord, successTrace.
  unfold mimage, keys, name in *.
  run_past_mapping HX HY HpX HpY;
    rewrite Hk, Himg, Hmk;
    fold (r_kernel r); rewrite Hci;
    unfold Point2I_sub, getCtr; cbn [getXI getYI];
    rewrite Hconv; reflexivity.
Qed.

(** A call that returns is one in which every call returned. *)
Lemma run_Ok_inv :
  fst (run order self src exp ctr) = Ok tt ->
  exists r,
    returnedBy self exp ctr r /\
    run order self src exp ctr = outcomeOf order self src exp ctr r.
Proof.
  intros H.
  assert (exists r, returnedBy self exp ctr r) as [r Hr].
  { revert H. unfold returnedBy. unfold mimage, keys, name in *.
    run_cases; try discriminate.
    all: intros _.
    all: repeat match goal with a : (_ * _)%type |- _ => destruct a end.
    all: cbn [fst snd] in *.
    all: eexists (mkReturned _ _ _ _ _ _ _ _ _ _ _).
    all: unfold r_kernel; cbn.
    all: repeat split; eassumption. }
  exists r. split; [ assumption | apply run_returns; assumption ].
Qed.

End Inversion.

(** ** Double arithmetic of the weight *)

Lemma binary_round_aux_sign prec emax sx mx ex lx :
  hasSign sx (binary_round_aux prec emax sx mx ex lx).
Proof.
  unfold binary_round_aux.
  destruct (shr_fexp prec emax mx ex lx) as [mrs' e'].
  destruct (shr_fexp prec emax _ e' loc_Exact) as [mrs'' e''].
  destruct (shr_m mrs''); simpl; auto.
  destruct (e'' <=? emax - prec); simpl; auto.
Qed.

(** A square is never negative, not even a negative zero. *)
Lemma SFmul_self_sign prec emax x : hasSign false (SFmul prec emax x x).
Proof.
  destruct x as [s | s | | s m e]; simpl; try apply xorb_nilpotent; auto.
  rewrite <- (xorb_nilpotent s) at 1. apply binary_round_aux_sign.
Qed.

Lemma SFadd_sign prec emax x y :
  hasSign false x -> hasSign false y -> hasSign false (SFadd prec emax x y).
Proof.
  destruct x as [sx | sx | | sx mx ex], y as [sy | sy | | sy my ey];
    simpl; intros Hx Hy; subst; simpl; auto.
  unfold binary_normalize, binary_round.
  destruct (shl_align _ _ _) as [mz ez].
  apply (binary_round_aux_sign prec emax false).
Qed.

(** [x == 0.0] holds of the two zeros only. *)
Lemma eqb_zero_inv (x : float) :
  (x =? 0)%float = true -> x = 0%float \/ x = (-0)%float.
Proof.
  rewrite FloatAxioms.eqb_spec.
  change (Prim2SF 0%float) with (S754_zero false).
  destruct (Prim2SF x) as [s | s | | s m e] eqn:E; simpl; try discriminate.
  - intros _. destruct s; [right | left];
      apply Prim2SF_inj; rewrite E; reflexivity.
  - destruct s; discriminate.
  - destruct s; discriminate.
Qed.

Lemma row_sign (row : list float) (acc : float) :
  hasSign false (Prim2SF acc) ->
  hasSign false
    (Prim2SF (fold_left (fun a v => (a + v * v)%float) row acc)).
Proof.
  revert acc. induction row as [ | v row IH]; intros acc Hacc; simpl; auto.
  apply IH. rewrite FloatAxioms.add_spec, FloatAxioms.mul_spec.
  apply SFadd_sign; auto. apply SFmul_self_sign.
Qed.

Lemma psfSqSumOf_sign (img : KernelImage) :
  hasSign false (Prim2SF (psfSqSumOf img)).
Proof.
  unfold psfSqSumOf.
  assert (H : hasSign false (Prim2SF 0%float)) by reflexivity.
  revert H. generalize 0%float as acc.
  induction img as [ | row img IH]; intros acc Hacc; simpl; auto.
  apply IH, row_sign, Hacc.
Qed.


(** The loop of lines 111-117 computes the sum of the squares of the
    cells. *)
Lemma row_sum_of_squares (row : list float) (acc : float) :
  fold_left (fun a v => (a + v * v)%float) row acc =
  fold_left (fun a v => (a + v)%float)
            (map (fun w => (w * w)%float) row) acc.
Proof.
  revert acc. induction row as [ | v row IH]; intros acc; [ reflexivity | ].
  cbn [fold_left map]. apply IH.
Qed.

Lemma psfSqSumOf_sum_of_squares (img : KernelImage) :
  psfSqSumOf img = sumOfSquares img.
Proof.
  unfold psfSqSumOf, sumOfSquares, sumList. generalize 0%float as acc.
  induction img as [ | row img IH]; intros acc; [ reflexivity | ].
  cbn [fold_left concat]. rewrite map_app, fold_left_app.
  rewrite (row_sum_of_squares row acc). apply IH.
Qed.

(** ** The weight *)

Section Weight.
Context {afw : Afw}.
Variables (order : ArgOrder) (self : FilteredFlux) (src : SourceRecord)
          (exp : Exposure) (ctr : Point2D).

Let mimage := getMaskedImage exp.

(** C4. The PSF is asked for its local kernel at one point only, the
    position that [indexToPosition] gives for the two indices that
    [positionToIndex] returned for the centre of the source (the pixel
    nearest to it), not at the centre itself.  In a call that returns,
    the flux and the variance written are the convolved value and
    variance scaled by [weight] and by [weight] twice, where [weight] is
    [1 / s] and [s] is the sum, over the cells of the normalized image
    of that kernel, of the square of the cell. *)
Theorem weight_is_inverse_square_sum_at_nearest_pixel :
  let out := run order self src exp ctr in
  (forall p, In (EvGetLocalKernel p) (trace (snd out)) ->
     exists ix fx iy fy px py,
       positionToIndex mimage (getX ctr) X = Ok (ix, fx) /\
       positionToIndex mimage (getY ctr) Y = Ok (iy, fy) /\
       indexToPosition mimage ix X = Ok px /\
       indexToPosition mimage iy Y = Ok py /\
       p = mkPoint2D px py) /\
  (fst out = Ok tt ->
     exists r, returnedBy self exp ctr r /\
       In (EvGetLocalKernel (mkPoint2D (r_px r) (r_py r)))
          (trace (snd out)) /\
       let s := sumList (map (fun w => (w * w)%float)
                             (concat (r_psfImage r))) in
       let weight := (1 / s)%float in
       source (snd out) =
       successRecord self src
         (image (r_pixel r) * weight)%float
         (variance (r_pixel r) * weight * weight)%float).
Proof.
  intros out. subst out. split.
  - intros p. unfold mimage. run_cases; intros Hin;
      repeat (destruct Hin as [Hin | Hin]; try discriminate Hin);
      try contradiction;
      injection Hin as <-;
      repeat match goal with a : (_ * _)%type |- _ => destruct a end;
      cbn [fst snd] in *; eauto 12.
  - intros H.
    destruct (run_Ok_inv order self src exp ctr H) as (r & Hr & ->).
    exists r. split; [ exact Hr | ]. split.
    + unfold outcomeOf, successTrace. cbn [snd trace].
      apply in_or_app. right. apply in_or_app. right. left. reflexivity.
    + cbv zeta. fold (sumOfSquares (r_psfImage r)).
      rewrite <- psfSqSumOf_sum_of_squares. reflexivity.
Qed.


End Weight.

(** ** The warping kernel *)

Lemma shift_getCtrX (k : SeparableKernel) (dKerX dKerY : float) :
  getCtrX (shiftAndSetParameters k dKerX dKerY) =
  if (dKerX <? 0)%float then getCtrX k + 1 else getCtrX k.
Proof.
  unfold shiftAndSetParameters.
  destruct (dKerX <? 0)%float, (dKerY <? 0)%float; reflexivity.
Qed.

Lemma shift_getCtrY (k : SeparableKernel) (dKerX dKerY : float) :
  getCtrY (shiftAndSetParameters k dKerX dKerY) =
  if (dKerY <? 0)%float then getCtrY k + 1 else getCtrY k.
Proof.
  unfold shiftAndSetParameters.
  destruct (dKerX <? 0)%float, (dKerY <? 0)%float; reflexivity.
Qed.

Lemma shift_getKernelParameters (k : SeparableKernel) (dKerX dKerY : float) :
  getKernelParameters (shiftAndSetParameters k dKerX dKerY) = (dKerX, dKerY).
Proof. reflexivity. Qed.

(** Neither zero is below zero. *)
Lemma zero_not_negative (x : float) :
  (x =? 0)%float = true -> (x <? 0)%float = false.
Proof. intros H. destruct (eqb_zero_inv x H) as [-> | ->]; reflexivity. Qed.

Section Warp.
Context {afw : Afw}.
Variables (order : ArgOrder) (self : FilteredFlux) (src : SourceRecord)
          (exp : Exposure) (ctr : Point2D).

Let mimage := getMaskedImage exp.
Let name := warpingKernelName (getControl self).

(** The state of the warping kernel when its image is computed, and the
    place at which the image is convolved, from the results of the
    earlier calls. *)
Lemma warp_events_inv (ev : Event) :
  In ev (trace (snd (run order self src exp ctr))) ->
  (exists k b, ev = EvComputeImage k b) \/
  (exists x y w h, ev = EvConvolveAtAPoint x y w h) ->
  exists ix fx iy fy k0,
    positionToIndex mimage (getX ctr) X = Ok (ix, fx) /\
    positionToIndex mimage (getY ctr) Y = Ok (iy, fy) /\
    makeWarpingKernel name = Ok k0 /\
    let k := shiftAndSetParameters k0 fx fy in
    (ev = EvComputeImage k true \/
     ev = EvConvolveAtAPoint (getXI (getXY0 mimage) - getCtrX k)
                             (getYI (getXY0 mimage) - getCtrY k)
                             (getWidth k) (getHeight k)).
Proof.
  unfold mimage, name.
  run_cases; intros Hin Hev;
    repeat (destruct Hin as [Hin | Hin];
            [ try (subst ev;
                   destruct Hev as [(? & ? & Hev) | (? & ? & ? & ? & Hev)];
                   discriminate Hev) | ]);
    try contradiction;
    repeat match goal with a : (_ * _)%type |- _ => destruct a end;
    cbn [fst snd] in *; subst ev; eauto 12.
Qed.

(** C3. The kernel whose weight image is computed is the kernel the
    factory returned with its declared centre moved and its parameters
    set to the two fractional offsets: along x the centre is unchanged
    when the offset compares equal to zero and is one more when the
    offset is below zero, however close to zero; along y likewise. *)
Theorem parity_shift_precedes_kernel_image (k : SeparableKernel) (b : bool) :
  In (EvComputeImage k b) (trace (snd (run order self src exp ctr))) ->
  exists ix fx iy fy k0,
    positionToIndex mimage (getX ctr) X = Ok (ix, fx) /\
    positionToIndex mimage (getY ctr) Y = Ok (iy, fy) /\
    makeWarpingKernel name = Ok k0 /\
    ((fx =? 0)%float = true -> getCtrX k = getCtrX k0) /\
    ((fx <? 0)%float = true -> getCtrX k = getCtrX k0 + 1) /\
    ((fy =? 0)%float = true -> getCtrY k = getCtrY k0) /\
    ((fy <? 0)%float = true -> getCtrY k = getCtrY k0 + 1) /\
    getKernelParameters k = (fx, fy).
Proof.
  intros Hin.
  destruct (warp_events_inv _ Hin)
    as (ix & fx & iy & fy & k0 & HX & HY & Hmk & Hev);
    [ left; eauto | ].
  destruct Hev as [Hev | Hev]; [ | discriminate Hev ].
  injection Hev as -> _.
  exists ix, fx, iy, fy, k0.
  rewrite shift_getCtrX, shift_getCtrY.
  repeat split; try assumption.
  - intros H. rewrite (zero_not_negative _ H). reflexivity.
  - intros ->. reflexivity.
  - intros H. rewrite (zero_not_negative _ H). reflexivity.
  - intros ->. reflexivity.
Qed.

(** The place at which the image is convolved is the origin of the image
    minus the centre of the warping kernel: it does not depend on the
    indices of the pixel nearest to the source. *)
Lemma convolution_is_anchored_at_origin (x y w h : Z) :
  In (EvConvolveAtAPoint x y w h)
     (trace (snd (run order self src exp ctr))) ->
  exists ix fx iy fy k0,
    positionToIndex mimage (getX ctr) X = Ok (ix, fx) /\
    positionToIndex mimage (getY ctr) Y = Ok (iy, fy) /\
    makeWarpingKernel name = Ok k0 /\
    let k := shiftAndSetParameters k0 fx fy in
    x = getXI (getXY0 mimage) - getCtrX k /\
    y = getYI (getXY0 mimage) - getCtrY k.
Proof.
  intros Hin.
  destruct (warp_events_inv _ Hin)
    as (ix & fx & iy & fy & k0 & HX & HY & Hmk & Hev);
    [ right; eauto 6 | ].
  destruct Hev as [Hev | Hev]; [ discriminate Hev | ].
  injection Hev as -> -> _ _.
  exists ix, fx, iy, fy, k0. auto.
Qed.

(** C8, as amended.  When the name is not recognised the call throws,
    the record is the one given with [flag := true], and no pixel has
    been read.  The error is the one thrown by the last call made, which
    is a call of the grid mapping, of the PSF or of the factory: the
    factory is called after the grid mapping and the PSF weight, so an
    error of these comes first.  When these six calls return, the error
    of the call is the ConfigurationError and the call to the factory is
    its last event. *)
Theorem unknown_name_aborts_before_pixels :
  makeWarpingKernel name = Throw ConfigurationError ->
  let out := run order self src exp ctr in
  (exists e ev,
     fst out = Throw e /\
     last (trace (snd out)) = Some ev /\
     thrownBy exp (trace (snd out)) ev e /\
     In (kindOf ev)
        [KPositionToIndex; KIndexToPosition; KGetLocalKernel;
         KPsfComputeImage; KMakeWarpingKernel] /\
     (kindOf ev = KMakeWarpingKernel -> e = ConfigurationError)) /\
  source (snd out) = <[flag (getKeys self) := FlagV true]> src /\
  Forall (fun ev => readsPixels ev = false) (trace (snd out)) /\
  (forall ix fx iy fy px py kern psfImage,
     positionToIndex mimage (getX ctr) X = Ok (ix, fx) ->
     positionToIndex mimage (getY ctr) Y = Ok (iy, fy) ->
     indexToPosition mimage ix X = Ok px ->
     indexToPosition mimage iy Y = Ok py ->
     getLocalKernel (getPsf exp) (mkPoint2D px py) = Ok kern ->
     k_computeImage kern true = Ok psfImage ->
     fst out = Throw ConfigurationError /\
     last (trace (snd out)) = Some (EvMakeWarpingKernel name)).
Proof.
  intros Hname out. subst out. unfold mimage, name in *.
  split; [ | split; [ | split ] ].
  - run_cases; try discriminate Hname;
      do 2 eexists; (split; [ reflexivity | ]);
      (split; [ reflexivity | ]);
      (split; [ cbn [thrownBy] | split; [ cbn; auto 10 | ] ]);
      first [ assumption
            | cbn; intros; congruence
            | do 2 eexists; split; [ cbn; auto 10 | split; eassumption ] ].
  - run_cases; try discriminate Hname; reflexivity.
  - run_cases; try discriminate Hname; repeat constructor.
  - intros ix fx iy fy px py kern psfImage HX HY HpX HpY Hk Himg.
    run_past_mapping HX HY HpX HpY; rewrite Hk, Himg, Hname;
      split; reflexivity.
Qed.

End Warp.

(** ** The point convolution and the reported results *)

(** The results of a partial function of the rows put end to end are
    the results of the rows, put end to end. *)
Lemma Forall2_concat_rows {A B} (P : A -> B -> Prop)
      (rows : list (list A)) (flat : list B) :
  Forall2 P (concat rows) flat ->
  exists cells, concat cells = flat /\ Forall2 (Forall2 P) rows cells.
Proof.
  revert flat. induction rows as [ | row rows IH]; intros flat H;
    cbn [concat] in H.
  - apply Forall2_nil_inv_l in H as ->.
    exists []. split; [ reflexivity | constructor ].
  - apply Forall2_app_inv_l in H as (k1 & k2 & H1 & H2 & ->).
    destruct (IH _ H2) as (cells & <- & Hc).
    exists (k1 :: cells). split; [ reflexivity | constructor; assumption ].
Qed.

(** What is related to the element of index [i] of an indexed map. *)
Lemma Forall2_imap_lookup {A B C} (f : nat -> A -> B) (R : B -> C -> Prop)
      (l : list A) (k : list C) (i : nat) (c : C) :
  Forall2 R (imap f l) k -> k !! i = Some c ->
  exists a, l !! i = Some a /\ R (f i a) c.
Proof.
  intros H Hc.
  destruct (Forall2_lookup_r _ _ _ _ _ H Hc) as (b & Hb & HR).
  rewrite list_lookup_imap in Hb.
  destruct (l !! i) as [a | ]; [ | discriminate Hb ].
  injection Hb as <-. eauto.
Qed.

(** A list related to an indexed map of [l] by a relation that keeps the
    element of [l] in sight gives [l] back. *)
Lemma Forall2_imap_fmap {A B C} (g : C -> A) (R : B -> C -> Prop)
      (l : list A) :
  forall (f : nat -> A -> B) (k : list C),
    (forall i a c, l !! i = Some a -> R (f i a) c -> g c = a) ->
    Forall2 R (imap f l) k -> map g k = l.
Proof.
  induction l as [ | a l IH]; intros f k Hg H; cbn [imap] in H.
  - apply Forall2_nil_inv_l in H as ->. reflexivity.
  - apply Forall2_cons_inv_l in H as (c & k' & HR & Hk & ->).
    cbn [map]. f_equal.
    + exact (Hg 0%nat a c eq_refl HR).
    + apply (IH (f ∘ S)); [ | exact Hk ].
      intros i a' c' Hl. exact (Hg (S i) a' c' Hl).
Qed.

(** The pixel that the model of the convolver pairs with a kernel
    cell. *)
Lemma paired_pixel (img : MaskedImage) (x0 y0 : Z) (i j : nat) (v : float)
      (c : float * MaskedPixel) :
  match SpecAfw.pixelAt img (x0 + Z.of_nat i) (y0 + Z.of_nat j) with
  | Some p => Some (v, p)
  | None => None
  end = Some c ->
  fst c = v /\
  0 <= x0 + Z.of_nat i /\ 0 <= y0 + Z.of_nat j /\
  exists prow,
    pixels img !! Z.to_nat (y0 + Z.of_nat j) = Some prow /\
    prow !! Z.to_nat (x0 + Z.of_nat i) = Some (snd c).
Proof.
  unfold SpecAfw.pixelAt.
  destruct (0 <=? x0 + Z.of_nat i) eqn:Hx; [ | discriminate ].
  destruct (0 <=? y0 + Z.of_nat j) eqn:Hy; [ | discriminate ].
  cbn [andb].
  destruct (pixels img !! Z.to_nat (y0 + Z.of_nat j)) as [prow | ];
    [ | discriminate ].
  destruct (prow !! Z.to_nat (x0 + Z.of_nat i)) as [p | ] eqn:Hp;
    [ | discriminate ].
  intros [= <-]. cbn [fst snd].
  split; [ reflexivity | ].
  split; [ apply Z.leb_le; exact Hx | ].
  split; [ apply Z.leb_le; exact Hy | ].
  exists prow. split; [ reflexivity | exact Hp ].
Qed.

(** The cells that the model of the convolver sums over are the
    overlapping cells, row by row. *)
Lemma overlap_is_overlapping (img : MaskedImage) (x0 y0 : Z)
      (kimg : KernelImage) (flat : list (float * MaskedPixel)) :
  SpecAfw.overlap img x0 y0 kimg = Some flat ->
  exists cells, concat cells = flat /\ overlapping img x0 y0 kimg cells.
Proof.
  unfold SpecAfw.overlap, SpecAfw.cellsOf. intros H.
  apply mapM_Some in H.
  apply Forall2_concat_rows in H as (cells & Hflat & Hc).
  exists cells. split; [ exact Hflat | ]. split.
  - refine (Forall2_imap_fmap (map fst) _ kimg _ cells _ Hc).
    intros j row crow _ Hrow.
    refine (Forall2_imap_fmap fst _ row _ crow _ Hrow).
    intros i v c _ Hcell. cbn [fst snd] in Hcell.
    exact (proj1 (paired_pixel img x0 y0 i j v c Hcell)).
  - intros i j crow c Hj Hi.
    destruct (Forall2_imap_lookup _ _ _ _ _ _ Hc Hj) as (row & _ & Hrow).
    destruct (Forall2_imap_lookup _ _ _ _ _ _ Hrow Hi) as (v & _ & Hcell).
    cbn [fst snd] in Hcell.
    exact (proj2 (paired_pixel img x0 y0 i j v c Hcell)).
Qed.

Section Convolution.
Variables (lib : Afw) (order : ArgOrder) (self : FilteredFlux)
          (src : SourceRecord) (exp : Exposure) (ctr : Point2D).

Let mimage := getMaskedImage exp.

(** C5. With the point convolver of section 4.4 in the library, in a
    call that returns: the pixel that the convolver returned holds the
    sum, over the cells of the image under the image of the warping
    kernel, of kernel weight times pixel value, and the sum of kernel
    weight squared times pixel variance; the record holds
    [flux = value * weight] and [fluxVariance = variance * weight *
    weight] (the square of the weight being applied as two successive
    multiplications, as in the source), [weight] being the inverse of
    the sum of the squares of the cells of the PSF kernel image, and
    [flag = false].  The cells are those under the kernel when its cell
    (0,0) is put where the code puts it, at the origin of the image
    minus the centre of the kernel. *)
Theorem flux_and_variance_formulas :
  let out := run (afw := withPointConvolver lib) order self src exp ctr in
  fst out = Ok tt ->
  exists r cells,
    returnedBy (afw := withPointConvolver lib) self exp ctr r /\
    overlapping mimage
      (getXI (getXY0 mimage) - getCtrX (r_kernel r))
      (getYI (getXY0 mimage) - getCtrY (r_kernel r))
      (r_warpImage r) cells /\
    let value := convolvedValue cells in
    let var := convolvedVariance cells in
    let weight := (1 / sumOfSquares (r_psfImage r))%float in
    r_pixel r = mkPixel value var /\
    source (snd out) =
    successRecord self src (value * weight)%float
                  (var * weight * weight)%float.
Proof.
  intros out H. subst out.
  destruct (run_Ok_inv (afw := withPointConvolver lib)
                       order self src exp ctr H) as (r & Hr & Hrun).
  pose proof Hr as (_ & _ & _ & _ & _ & _ & _ & _ & Hconv).
  cbn [convolveAtAPoint withPointConvolver] in Hconv.
  unfold SpecAfw.convolveAtAPoint in Hconv. fold mimage in Hconv.
  destruct (SpecAfw.overlap mimage _ _ (r_warpImage r))
    as [flat | ] eqn:Hov; [ | discriminate Hconv ].
  injection Hconv as Hpix.
  destruct (overlap_is_overlapping _ _ _ _ _ Hov) as (cells & <- & Hcells).
  exists r, cells. split; [ exact Hr | ]. split; [ exact Hcells | ].
  cbv zeta. split; [ symmetry; exact Hpix | ].
  rewrite Hrun. unfold outcomeOf, r_weight. cbn [snd source].
  rewrite <- Hpix, psfSqSumOf_sum_of_squares. reflexivity.
Qed.

End Convolution.

(** ** The point convolver stays inside the plane *)

Lemma pixelAt_inside (img : MaskedImage) (x y : Z) (p : MaskedPixel) :
  SpecAfw.pixelAt img x y = Some p ->
  0 <= x /\ 0 <= y /\
  exists row,
    pixels img !! Z.to_nat y = Some row /\
    (Z.to_nat y < length (pixels img))%nat /\
    (Z.to_nat x < length row)%nat.
Proof.
  unfold SpecAfw.pixelAt.
  destruct (0 <=? x) eqn:Hx; [ | discriminate ].
  destruct (0 <=? y) eqn:Hy; [ | discriminate ].
  cbn [andb].
  destruct (pixels img !! Z.to_nat y) as [row | ] eqn:Hrow; [ | discriminate ].
  intros Hp.
  split; [ apply Z.leb_le; exact Hx | ].
  split; [ apply Z.leb_le; exact Hy | ].
  exists row. split; [ reflexivity | ].
  split; eapply lookup_lt_Some; eassumption.
Qed.

(** A point convolution that returns has found every cell of its
    footprint inside the stored bounds of the plane. *)
Lemma convolution_reads_inside (img : MaskedImage) (x0 y0 : Z)
      (kimg : KernelImage) (w h : Z) (p : MaskedPixel) :
  SpecAfw.convolveAtAPoint img x0 y0 kimg w h = Ok p ->
  Forall (fun c : Z * Z * float =>
            is_Some (SpecAfw.pixelAt img (x0 + fst (fst c))
                                     (y0 + snd (fst c))))
         (SpecAfw.cellsOf kimg).
Proof.
  unfold SpecAfw.convolveAtAPoint, SpecAfw.overlap.
  destruct (mapM _ (SpecAfw.cellsOf kimg)) as [cells | ] eqn:Hm;
    [ intros _ | discriminate ].
  apply mapM_Some in Hm.
  induction Hm as [ | c q cs qs Hc _ IH]; constructor; [ | exact IH ].
  destruct (SpecAfw.pixelAt img _ _) as [px | ]; [ eauto | discriminate Hc ].
Qed.

(** ** The library on the scenarios *)

Example nearest_pixel_of_centre :
  positionToIndex (Afw := Scenario.library) Scenario.image5x5 2%float X
  = Ok (2, 0%float) /\
  positionToIndex (Afw := Scenario.library) Scenario.image5x5 1.75%float X
  = Ok (2, (-0.25)%float) /\
  positionToIndex (Afw := Scenario.library) Scenario.image5x5 4.25%float Y
  = Ok (4, 0.25%float).
Proof. repeat split; reflexivity. Qed.

Example bilinear_is_delta_at_zero_offset :
  computeImage (Afw := Scenario.library)
               (shiftAndSetParameters Scenario.bilinearKernel 0 0) true
  = Ok [[1%float; 0%float]; [0%float; 0%float]].
Proof. reflexivity. Qed.

Example bilinear_left_of_centre :
  computeImage (Afw := Scenario.library)
               (shiftAndSetParameters Scenario.bilinearKernel (-0.25) 0) true
  = Ok [[0.25%float; 0.75%float]; [0%float; 0%float]].
Proof. reflexivity. Qed.

(** Neither zero moves the centre; the negative double nearest to zero
    does. *)
Example parity_tie_break :
  getCtrX (shiftAndSetParameters Scenario.bilinearKernel 0 0) = 0 /\
  getCtrX (shiftAndSetParameters Scenario.bilinearKernel (-0) 0) = 0 /\
  getCtrX (shiftAndSetParameters Scenario.bilinearKernel (-0x1p-1074) 0) = 1 /\
  getCtrY (shiftAndSetParameters Scenario.bilinearKernel 0 (-0x1p-1074)) = 1.
Proof. repeat split; reflexivity. Qed.

Example unit_psf_weight :
  (1 / psfSqSumOf [[1%float]])%float = 1%float.
Proof. reflexivity. Qed.

(** ** The general theorems on the scenarios *)

(** The PSF cannot be evaluated: the call throws, the flag reads [true]
    and the flux and variance of the earlier measurement are still in
    their slots. *)
Lemma failed_flag_discipline_witness :
  let out := run (afw := Scenario.library) YThenX
                 (Scenario.algorithm "bilinear")
                 Scenario.record0
                 (mkExposure Scenario.image5x5 Scenario.failingPsf)
                 Scenario.atCentre in
  fst out = Throw (RuntimeError "PSF is not defined at this point") /\
  source (snd out) !! "flux.filtered.flags" = Some (FlagV true) /\
  source (snd out) !! "flux.filtered" = Some (DoubleV 42) /\
  source (snd out) !! "flux.filtered.err" = Some (DoubleV 4).
Proof.
  intros out.
  destruct (failed_flag_discipline
              (afw := Scenario.library) YThenX (Scenario.algorithm "bilinear")
              Scenario.record0
              (mkExposure Scenario.image5x5 Scenario.failingPsf)
              Scenario.atCentre)
    as (_ & Hthrow & _).
  destruct (Hthrow (RuntimeError "PSF is not defined at this point") eq_refl)
    as [Hsrc _].
  split; [ reflexivity | ].
  subst out. rewrite Hsrc. repeat split; reflexivity.
Defined.

(** The source is at (4.25, 4.25) on the ramp: the PSF is evaluated at
    (4, 4), the position of the nearest pixel.  The four cells of its
    normalized image are 0.25, the sum of their squares is 0.25 and the
    weight is 4: the convolved value 2 and the convolved variance
    0.78125 are written as 8 and 12.5. *)
Lemma weight_is_inverse_square_sum_at_nearest_pixel_witness :
  let self := Scenario.algorithm "bilinear" in
  let exp := mkExposure Cases.rampImage Cases.boxPsf in
  let out := run (afw := Scenario.library) YThenX self Scenario.record0 exp
                 Scenario.nearEdge in
  In (EvGetLocalKernel (mkPoint2D 4 4)) (trace (snd out)) /\
  (exists ix iy,
     positionToIndex (Afw := Scenario.library) Cases.rampImage 4.25%float X
     = Ok (ix, 0.25%float) /\
     positionToIndex (Afw := Scenario.library) Cases.rampImage 4.25%float Y
     = Ok (iy, 0.25%float) /\
     indexToPosition (Afw := Scenario.library) Cases.rampImage ix X
     = Ok 4%float /\
     indexToPosition (Afw := Scenario.library) Cases.rampImage iy Y
     = Ok 4%float) /\
  fst out = Ok tt /\
  Cases.normalize Cases.boxImage
  = [[0.25%float; 0.25%float]; [0.25%float; 0.25%float]] /\
  sumList (map (fun w => (w * w)%float)
               (concat (Cases.normalize Cases.boxImage))) = 0.25%float /\
  (1 / 0.25)%float = 4%float /\
  source (snd out) =
  successRecord self Scenario.record0
    (2 * (1 / 0.25))%float (0.78125 * (1 / 0.25) * (1 / 0.25))%float /\
  source (snd out) !! "flux.filtered" = Some (DoubleV 8) /\
  source (snd out) !! "flux.filtered.err" = Some (DoubleV 12.5).
Proof.
  intros self exp out.
  assert (Hin : In (EvGetLocalKernel (mkPoint2D 4 4)) (trace (snd out)))
    by (vm_compute; auto 12).
  assert (Hok : fst out = Ok tt) by (vm_compute; reflexivity).
  destruct (weight_is_inverse_square_sum_at_nearest_pixel
              (afw := Scenario.library) YThenX self Scenario.record0 exp
              Scenario.nearEdge)
    as [Hat Hret].
  split; [ exact Hin | ]. split.
  { destruct (Hat _ Hin)
      as (ix & fx & iy & fy & px & py & HX & HY & HpX & HpY & Hp).
    injection Hp as <- <-.
    pose proof HX as HX'. pose proof HY as HY'.
    injection HX' as _ <-. injection HY' as _ <-.
    exists ix, iy. auto. }
  destruct (Hret Hok) as (r & Hr & _ & Hsrc).
  destruct r as [ix fx iy fy px py kern psfImage k0 wimg pix].
  unfold returnedBy, r_kernel in Hr.
  cbn [r_ix r_fx r_iy r_fy r_px r_py r_kern r_psfImage r_kernel0
       r_warpImage r_pixel] in Hr, Hsrc.
  destruct Hr as (HX & HY & HpX & HpY & Hk & Himg & Hmk & Hci & Hconv).
  vm_compute in HX. injection HX as <- <-.
  vm_compute in HY. injection HY as <- <-.
  vm_compute in HpX. injection HpX as <-.
  vm_compute in HpY. injection HpY as <-.
  vm_compute in Hk. injection Hk as <-.
  vm_compute in Himg. injection Himg as <-.
  vm_compute in Hmk. injection Hmk as <-.
  vm_compute in Hci. injection Hci as <-.
  vm_compute in Hconv. injection Hconv as <-.
  split; [ exact Hok | ].
  split; [ reflexivity | ]. split; [ reflexivity | ].
  split; [ reflexivity | ]. split; [ exact Hsrc | ].
  subst out. rewrite Hsrc. split; reflexivity.
Defined.

(** The field [centroid.x] of the record is not touched. *)
Lemma only_output_slots_change_witness :
  let self := Scenario.algorithm "bilinear" in
  let exp := mkExposure Scenario.image5x5 Scenario.unitPsf in
  let out := run (afw := Scenario.library) YThenX self Scenario.record0 exp
                 Scenario.atCentre in
  source (snd out) !! "centroid.x" = Scenario.record0 !! "centroid.x" /\
  exposure (snd out) = exp /\
  center (snd out) = Scenario.atCentre /\
  Forall (fun e => forall k', writtenKey e = Some k' ->
                     k' = flag (getKeys self) \/
                     k' = meas (getKeys self) \/
                     k' = err (getKeys self))
         (trace (snd out)).
Proof.
  intros self exp.
  exact (only_output_slots_change (afw := Scenario.library) YThenX
           self Scenario.record0 exp Scenario.atCentre "centroid.x"
           ltac:(discriminate) ltac:(discriminate) ltac:(discriminate)).
Defined.



(** A PSF kernel whose cells are all zero, under the same
    normalisation: the normalized cells are NaN, the sum of their
    squares does not compare equal to zero, and this is no error
    either.  The call returns, having written NaN twice and cleared the
    flag. *)
Example all_zero_psf_is_not_reported :
  forall order,
  let out := run (afw := Scenario.library) order
                 (Scenario.algorithm "bilinear") Scenario.record0
                 (mkExposure Scenario.image5x5 Cases.blankPsf)
                 Scenario.atCentre in
  Cases.normalize Cases.blankImage = [[nan; nan]; [nan; nan]] /\
  ~ degenerate (Cases.normalize Cases.blankImage) /\
  fst out = Ok tt /\
  source (snd out) !! "flux.filtered" = Some (DoubleV nan) /\
  source (snd out) !! "flux.filtered.err" = Some (DoubleV nan) /\
  source (snd out) !! "flux.filtered.flags" = Some (FlagV false).
Proof.
  intros order out.
  split; [ reflexivity | ]. split; [ intros H; discriminate H | ].
  subst out. destruct order; repeat split; vm_compute; reflexivity.
Qed.

(** The source is a quarter of a pixel to the left of a pixel centre:
    the image of the kernel is computed with the centre moved from (0,0)
    to (1,0). *)
Lemma parity_shift_precedes_kernel_image_witness :
  let out := run (afw := Scenario.library) YThenX
                 (Scenario.algorithm "bilinear")
                 Scenario.record0
                 (mkExposure Scenario.image5x5 Scenario.unitPsf)
                 Scenario.leftOfCentre in
  let k := mkSeparableKernel 2 2 1 0 ((-0.25)%float, 0%float)
                             SpecAfw.bilinearFunction in
  In (EvComputeImage k true) (trace (snd out)) /\
  getCtrX k = getCtrX Scenario.bilinearKernel + 1 /\
  getCtrY k = getCtrY Scenario.bilinearKernel.
Proof.
  intros out k.
  assert (Hin : In (EvComputeImage k true) (trace (snd out)))
    by (vm_compute; auto 12).
  split; [ exact Hin | ].
  destruct (parity_shift_precedes_kernel_image
              (afw := Scenario.library) _ _ _ _ _ k true Hin)
    as (ix & fx & iy & fy & k0 & HX & HY & Hmk & Hx0 & Hx & Hy0 & Hy & _).
  injection HX as <- <-. injection HY as <- <-. injection Hmk as <-.
  split; [ apply Hx | apply Hy0 ]; reflexivity.
Defined.

(** The source is at (2.25, 2.25) on the ramp, with the PSF of four
    equal cells.  The image of the bilinear kernel has the weights
    0.5625, 0.1875, 0.1875 and 0.0625, and the code puts its cell (0,0)
    on the pixel (0,0): the four pixels under it hold 1, 2, 4 and 5,
    with variance 2.  The convolved value is 2 and the convolved
    variance 0.78125; the weight is 4, the flux written is 8 and the
    variance written is 12.5. *)
Lemma flux_and_variance_formulas_witness :
  let self := Scenario.algorithm "bilinear" in
  let exp := mkExposure Cases.rampImage Cases.boxPsf in
  let out := run (afw := Scenario.library) YThenX self Scenario.record0 exp
                 Cases.offCentre in
  let cells :=
    [[(0.5625%float, mkPixel 1 2); (0.1875%float, mkPixel 2 2)];
     [(0.1875%float, mkPixel 4 2); (0.0625%float, mkPixel 5 2)]] in
  fst out = Ok tt /\
  overlapping Cases.rampImage 0 0
              [[0.5625%float; 0.1875%float]; [0.1875%float; 0.0625%float]]
              cells /\
  convolvedValue cells = 2%float /\
  convolvedVariance cells = 0.78125%float /\
  (1 / sumOfSquares (Cases.normalize Cases.boxImage))%float = 4%float /\
  source (snd out) =
  successRecord self Scenario.record0
    (convolvedValue cells * 4)%float
    (convolvedVariance cells * 4 * 4)%float /\
  source (snd out) !! "flux.filtered" = Some (DoubleV 8) /\
  source (snd out) !! "flux.filtered.err" = Some (DoubleV 12.5) /\
  source (snd out) !! "flux.filtered.flags" = Some (FlagV false).
Proof.
  intros self exp out cells.
  assert (Hok : fst out = Ok tt) by (vm_compute; reflexivity).
  destruct (flux_and_variance_formulas
              Scenario.library YThenX self Scenario.record0 exp
              Cases.offCentre Hok)
    as (r & cells' & Hr & Hcells & _ & Hsrc).
  destruct r as [ix fx iy fy px py kern psfImage k0 wimg pix].
  unfold returnedBy, r_kernel in Hr, Hcells.
  cbn [r_ix r_fx r_iy r_fy r_px r_py r_kern r_psfImage r_kernel0
       r_warpImage r_pixel] in Hr, Hcells, Hsrc.
  destruct Hr as (HX & HY & HpX & HpY & Hk & Himg & Hmk & Hci & _).
  vm_compute in HX. injection HX as <- <-.
  vm_compute in HY. injection HY as <- <-.
  vm_compute in HpX. injection HpX as <-.
  vm_compute in HpY. injection HpY as <-.
  vm_compute in Hk. injection Hk as <-.
  vm_compute in Himg. injection Himg as <-.
  vm_compute in Hmk. injection Hmk as <-.
  vm_compute in Hci. injection Hci as <-.
  assert (Hsame : cells' = cells).
  { destruct Hcells as [Hw Hp]. cbn in Hw.
    destruct cells' as [ | [ | [w00 p00] [ | [w10 p10] [ | ? ?]]] cells'];
      try discriminate Hw.
    destruct cells' as [ | [ | [w01 p01] [ | [w11 p11] [ | ? ?]]] cells'];
      try discriminate Hw.
    destruct cells' as [ | ? ?]; [ | discriminate Hw ].
    cbn in Hw. injection Hw as -> -> -> ->.
    destruct (Hp 0%nat 0%nat _ _ eq_refl eq_refl)
      as (_ & _ & row0 & Hrow0 & H00).
    destruct (Hp 1%nat 0%nat _ _ eq_refl eq_refl)
      as (_ & _ & row0' & Hrow0' & H10).
    destruct (Hp 0%nat 1%nat _ _ eq_refl eq_refl)
      as (_ & _ & row1 & Hrow1 & H01).
    destruct (Hp 1%nat 1%nat _ _ eq_refl eq_refl)
      as (_ & _ & row1' & Hrow1' & H11).
    vm_compute in Hrow0. injection Hrow0 as <-.
    vm_compute in Hrow0'. injection Hrow0' as <-.
    vm_compute in Hrow1. injection Hrow1 as <-.
    vm_compute in Hrow1'. injection Hrow1' as <-.
    vm_compute in H00. injection H00 as <-.
    vm_compute in H10. injection H10 as <-.
    vm_compute in H01. injection H01 as <-.
    vm_compute in H11. injection H11 as <-.
    reflexivity. }
  subst cells'.
  assert (Hrec : source (snd out) =
                 successRecord self Scenario.record0
                   (convolvedValue cells * 4)%float
                   (convolvedVariance cells * 4 * 4)%float)
    by exact Hsrc.
  split; [ exact Hok | ]. split; [ exact Hcells | ].
  split; [ reflexivity | ]. split; [ reflexivity | ].
  split; [ reflexivity | ]. split; [ exact Hrec | ].
  rewrite Hrec. repeat split; reflexivity.
Defined.

(** The name "boxcar" is not in the table of the library.  With the
    unit PSF the six earlier calls return: the call throws the
    ConfigurationError and the call of the factory is its last event.
    With the PSF that cannot be evaluated, the error of the call is the
    error of the PSF and the call of the PSF is its last event. *)
Lemma unknown_name_aborts_before_pixels_witness :
  let self := Scenario.algorithm "boxcar" in
  let out := run (afw := Scenario.library) YThenX self Scenario.record0
                 (mkExposure Scenario.image5x5 Scenario.unitPsf)
                 Scenario.atCentre in
  let out' := run (afw := Scenario.library) YThenX self Scenario.record0
                  (mkExposure Scenario.image5x5 Scenario.failingPsf)
                  Scenario.atCentre in
  makeWarpingKernel (Afw := Scenario.library) "boxcar"
  = Throw ConfigurationError /\
  (fst out = Throw ConfigurationError /\
   last (trace (snd out)) = Some (EvMakeWarpingKernel "boxcar") /\
   source (snd out)
   = <["flux.filtered.flags" := FlagV true]> Scenario.record0 /\
   Forall (fun ev => readsPixels ev = false) (trace (snd out))) /\
  (fst out' = Throw (RuntimeError "PSF is not defined at this point") /\
   last (trace (snd out')) = Some (EvGetLocalKernel (mkPoint2D 2 2)) /\
   getLocalKernel Scenario.failingPsf (mkPoint2D 2 2)
   = Throw (RuntimeError "PSF is not defined at this point") /\
   source (snd out')
   = <["flux.filtered.flags" := FlagV true]> Scenario.record0 /\
   Forall (fun ev => readsPixels ev = false) (trace (snd out'))).
Proof.
  intros self out out'.
  split; [ reflexivity | ]. split.
  - pose proof (unknown_name_aborts_before_pixels
                  (afw := Scenario.library) YThenX self Scenario.record0
                  (mkExposure Scenario.image5x5 Scenario.unitPsf)
                  Scenario.atCentre eq_refl)
      as (_ & Hsrc & Hpix & Hcfg).
    destruct (Hcfg 2 0%float 2 0%float 2%float 2%float
                   (mkKernel (1, 1) (fun _ => Ok _)) _
                   eq_refl eq_refl eq_refl eq_refl eq_refl eq_refl)
      as [Herr Hlast].
    repeat split; assumption.
  - pose proof (unknown_name_aborts_before_pixels
                  (afw := Scenario.library) YThenX self Scenario.record0
                  (mkExposure Scenario.image5x5 Scenario.failingPsf)
                  Scenario.atCentre eq_refl)
      as ((e & ev & He & Hlast & Hthrown & _) & Hsrc & Hpix & _).
    change (last (trace (snd out')) = Some ev) in Hlast.
    assert (Hev : ev = EvGetLocalKernel (mkPoint2D 2 2)).
    { vm_compute in Hlast. injection Hlast as <-. reflexivity. }
    subst ev. cbn [thrownBy getPsf] in Hthrown.
    assert (Hee : e = RuntimeError "PSF is not defined at this point").
    { vm_compute in He. injection He as <-. reflexivity. }
    subst e.
    split; [ exact He | ]. split; [ reflexivity | ].
    split; [ exact Hthrown | ]. split; assumption.
Defined.

(** C8, refuted as stated: the name is not recognised, but the PSF
    cannot be evaluated and its error is the one of the call, whichever
    the order of evaluation. *)
Lemma unknown_name_after_failing_psf :
  ~ exists order,
      unknown_name_is_ConfigurationError (afw := Scenario.library) order
        (Scenario.algorithm "boxcar") Scenario.record0
        (mkExposure Scenario.image5x5 Scenario.failingPsf)
        Scenario.atCentre.
Proof.
  intros [order H]. destruct (H eq_refl) as [Hthrow _].
  destruct order; vm_compute in Hthrow; discriminate Hthrow.
Qed.

(** ** The place of the convolution *)

(** C6. The source is on the centre of pixel (2,2) of the 5x5 image and
    the bilinear kernel declares its centre at (0,0), so the offset
    that puts the kernel centre on the nearest pixel, the index of that
    pixel minus the kernel centre, is (2,2).  The code passes the origin
    of the image minus the kernel centre, (0,0): the image is convolved
    at its corner. *)
Theorem alignment_offset_ignores_nearest_pixel :
  forall order,
  let out := run (afw := Scenario.library) order
                 (Scenario.algorithm "bilinear")
                 Scenario.record0
                 (mkExposure Scenario.image5x5 Scenario.unitPsf)
                 Scenario.atCentre in
  positionToIndex (Afw := Scenario.library) Scenario.image5x5 2%float X
  = Ok (2, 0%float) /\
  positionToIndex (Afw := Scenario.library) Scenario.image5x5 2%float Y
  = Ok (2, 0%float) /\
  In (EvComputeImage (shiftAndSetParameters Scenario.bilinearKernel 0 0) true)
     (trace (snd out)) /\
  getCtr (shiftAndSetParameters Scenario.bilinearKernel 0 0) = mkPoint2I 0 0 /\
  In (EvConvolveAtAPoint 0 0 2 2) (trace (snd out)) /\
  ~ In (EvConvolveAtAPoint (2 - 0) (2 - 0) 2 2) (trace (snd out)).
Proof.
  intros order out.
  split; [ reflexivity | ]. split; [ reflexivity | ].
  subst out. destruct order.
  all: split; [ vm_compute; auto 12 | ].
  all: split; [ reflexivity | ].
  all: split; [ vm_compute; auto 12 | ].
  all: vm_compute; intros H.
  all: repeat (destruct H as [H | H]; [ discriminate H | ]).
  all: exact H.
Qed.

(** C7. The source is a quarter of a pixel beyond the centre of the
    last pixel (4,4) of the 5x5 image: the footprint of the 2x2 kernel
    around that pixel leaves the plane, and the point convolver, asked
    there, raises a BoundsError.  The code asks it at (0,0) instead: the
    call returns and clears the failed flag. *)
Theorem footprint_past_edge_is_not_reported :
  forall order,
  let out := run (afw := Scenario.library) order
                 (Scenario.algorithm "bilinear")
                 Scenario.record0
                 (mkExposure Scenario.image5x5 Scenario.unitPsf)
                 Scenario.nearEdge in
  let k := shiftAndSetParameters Scenario.bilinearKernel 0.25 0.25 in
  positionToIndex (Afw := Scenario.library) Scenario.image5x5 4.25%float X
  = Ok (4, 0.25%float) /\
  positionToIndex (Afw := Scenario.library) Scenario.image5x5 4.25%float Y
  = Ok (4, 0.25%float) /\
  (exists wimg,
     computeImage (Afw := Scenario.library) k true = Ok wimg /\
     SpecAfw.overlap Scenario.image5x5 (4 - getCtrX k) (4 - getCtrY k) wimg
     = None /\
     convolveAtAPoint (Afw := Scenario.library) Scenario.image5x5
                      (4 - getCtrX k) (4 - getCtrY k) wimg 2 2
     = Throw BoundsError) /\
  In (EvConvolveAtAPoint 0 0 2 2) (trace (snd out)) /\
  fst out = Ok tt /\
  source (snd out) !! "flux.filtered.flags" = Some (FlagV false).
Proof.
  intros order out k.
  split; [ reflexivity | ]. split; [ reflexivity | ].
  split; [ eexists; split; [ reflexivity | split; reflexivity ] | ].
  subst out. destruct order.
  all: split; [ vm_compute; auto 12 | ].
  all: split; vm_compute; reflexivity.
Qed.

(** C9. The scenario of the specification: the 5x5 image with 100 at
    its centre cell and variance 1, a PSF of a single unit weight, the
    source exactly on the centre of pixel (2,2).  The weight is 1 and the
    kernel is the delta kernel, but the pixel read is the corner (0,0):
    the flux written is 0, not 100. *)
Theorem exact_centre_scenario_reads_corner_pixel :
  forall order,
  let out := run (afw := Scenario.library) order
                 (Scenario.algorithm "bilinear")
                 Scenario.record0
                 (mkExposure Scenario.image5x5 Scenario.unitPsf)
                 Scenario.atCentre in
  SpecAfw.pixelAt Scenario.image5x5 2 2 = Some (mkPixel 100 1) /\
  SpecAfw.pixelAt Scenario.image5x5 0 0 = Some (mkPixel 0 1) /\
  (1 / psfSqSumOf [[1%float]])%float = 1%float /\
  computeImage (Afw := Scenario.library)
               (shiftAndSetParameters Scenario.bilinearKernel 0 0) true
  = Ok [[1%float; 0%float]; [0%float; 0%float]] /\
  In (EvConvolveAtAPoint 0 0 2 2) (trace (snd out)) /\
  fst out = Ok tt /\
  source (snd out) !! "flux.filtered" = Some (DoubleV 0) /\
  source (snd out) !! "flux.filtered.err" = Some (DoubleV 1) /\
  source (snd out) !! "flux.filtered.flags" = Some (FlagV false).
Proof.
  intros order out.
  repeat (split; [ reflexivity | ]).
  subst out. destruct order.
  all: split; [ vm_compute; auto 12 | ].
  all: repeat split; vm_compute; reflexivity.
Qed.

(** The defect in the other direction.  The source is a quarter of a
    pixel to the left of the centre of pixel (2,2): the footprint around
    that pixel, columns 1..2 and rows 2..3, is inside the plane, but the
    kernel centre has been moved to (1,0) and the code asks the point
    convolver at (-1,0). *)
Example inner_source_is_reported_out_of_bounds :
  forall order,
  let out := run (afw := Scenario.library) order
                 (Scenario.algorithm "bilinear")
                 Scenario.record0
                 (mkExposure Scenario.image5x5 Scenario.unitPsf)
                 Scenario.leftOfCentre in
  let k := shiftAndSetParameters Scenario.bilinearKernel (-0.25) 0 in
  positionToIndex (Afw := Scenario.library) Scenario.image5x5 1.75%float X
  = Ok (2, (-0.25)%float) /\
  getCtr k = mkPoint2I 1 0 /\
  (exists wimg pix,
     computeImage (Afw := Scenario.library) k true = Ok wimg /\
     convolveAtAPoint (Afw := Scenario.library) Scenario.image5x5
                      (2 - getCtrX k) (2 - getCtrY k) wimg 2 2
     = Ok pix) /\
  In (EvConvolveAtAPoint (-1) 0 2 2) (trace (snd out)) /\
  fst out = Throw BoundsError.
Proof.
  intros order out k.
  split; [ reflexivity | ]. split; [ reflexivity | ].
  split; [ do 2 eexists; split; reflexivity | ].
  subst out. destruct order.
  all: split; [ vm_compute; auto 12 | reflexivity ].
Qed.

(** * Further properties of [_apply] *)

(** ** Control flow *)

Section Flow.
Context {afw : Afw}.
Variables (order : ArgOrder) (self : FilteredFlux) (src : SourceRecord)
          (exp : Exposure) (ctr : Point2D).

(** X1. [_apply] throws nothing of its own and translates nothing: when
    a call throws [e], the last event of its trace is a call to the PSF
    or to the image library, and that call threw [e]. *)
Theorem exceptions_come_from_the_last_call (e : Exception) :
  fst (run order self src exp ctr) = Throw e ->
  exists ev,
    last (trace (snd (run order self src exp ctr))) = Some ev /\
    thrownBy exp (trace (snd (run order self src exp ctr))) ev e.
Proof.
  run_cases; intros H; try discriminate H; injection H as <-;
    eexists; (split; [ reflexivity | ]); cbn [thrownBy];
    first [ assumption
          | do 2 eexists; split; [ cbn; auto 12 | split; eassumption ] ].
Qed.

(** X2. A call returns exactly when each of its nine calls to the PSF
    and to the image library returns: there is no other way to fail (no
    test of the pixels, of the weight or of the result). *)
Theorem returns_iff_every_call_returns :
  fst (run order self src exp ctr) = Ok tt <->
  exists r, returnedBy self exp ctr r.
Proof.
  split.
  - intros H. destruct (run_Ok_inv order self src exp ctr H) as (r & Hr & _).
    exists r. exact Hr.
  - intros [r Hr]. rewrite (run_returns order self src exp ctr r Hr).
    reflexivity.
Qed.

(** X3. A call never reads the record: whether it returns, what it
    throws, the calls it makes and the values it writes are the same
    whatever the record holds. *)
Theorem outcome_does_not_depend_on_record (src' : SourceRecord) :
  fst (run order self src exp ctr) = fst (run order self src' exp ctr) /\
  trace (snd (run order self src exp ctr)) =
  trace (snd (run order self src' exp ctr)).
Proof. run_cases; split; reflexivity. Qed.

(** X4. The writes and the calls happen in the order of the source,
    each statement at most once, and a call that throws stops there: the
    kinds of the events of a trace are a prefix of the statement order,
    the whole of it exactly when the call returns; at least the first
    write and the first call are always there. *)
Theorem events_follow_statement_order :
  let t := trace (snd (run order self src exp ctr)) in
  map kindOf t `prefix_of` statementOrder /\
  (fst (run order self src exp ctr) = Ok tt <->
   map kindOf t = statementOrder) /\
  (2 <= length t)%nat.
Proof.
  intros t. subst t. run_cases;
    (split; [ eexists; reflexivity | ]);
    (split; [ split; intros H; first [ discriminate H | reflexivity ] | ]);
    cbn; lia.
Qed.

End Flow.

(** ** The record *)

Section Record.
Context {afw : Afw}.
Variables (order : ArgOrder) (self : FilteredFlux) (src : SourceRecord)
          (exp : Exposure) (ctr : Point2D).

(** X5. Measuring again changes nothing: a second call on the record
    that a first call left, with the same exposure and centre, has the
    same result and the same trace and leaves the same record, whether
    the keys are distinct or not. *)
Theorem second_call_changes_nothing :
  let out := run order self src exp ctr in
  run order self (source (snd out)) exp ctr = out.
Proof.
  intros out. subst out. run_cases; f_equal; f_equal;
    apply map_eq; intros k;
    rewrite ?lookup_insert; repeat case_decide; congruence.
Qed.

(** X14. Whatever the three keys are, equal or not, the flag slot tells
    the outcome: after a call it reads [false] when the call returned
    and [true] when it threw. *)
Theorem flag_reads_the_outcome :
  let out := run order self src exp ctr in
  source (snd out) !! flag (getKeys self)
  = Some (FlagV (match fst out with Ok _ => false | Throw _ => true end)).
Proof.
  intros out. subst out.
  destruct (run_shape order self src exp ctr)
    as (calls & _ & [(e & ->) | (flux & var & ->)]);
    cbn [fst snd source]; apply lookup_insert_eq.
Qed.

(** X6. With three distinct keys: after a call that throws, the flag
    reads [true] and the flux and variance slots read what they read
    before the call (the values of an earlier measurement, if any, stay
    there); after a call that returns, the flag reads [false] and the
    two slots read the convolved value times the weight and the
    convolved variance times the weight, twice. *)
Theorem slots_after_a_call :
  flag (getKeys self) <> meas (getKeys self) ->
  flag (getKeys self) <> err (getKeys self) ->
  meas (getKeys self) <> err (getKeys self) ->
  let out := run order self src exp ctr in
  let rec := source (snd out) in
  (forall e, fst out = Throw e ->
     rec !! flag (getKeys self) = Some (FlagV true) /\
     rec !! meas (getKeys self) = src !! meas (getKeys self) /\
     rec !! err (getKeys self) = src !! err (getKeys self)) /\
  (fst out = Ok tt ->
     exists r, returnedBy self exp ctr r /\
       rec !! flag (getKeys self) = Some (FlagV false) /\
       rec !! meas (getKeys self)
       = Some (DoubleV (image (r_pixel r) * r_weight r)) /\
       rec !! err (getKeys self)
       = Some (DoubleV (variance (r_pixel r) * r_weight r * r_weight r))).
Proof.
  intros Hfm Hfe Hme out rec. subst rec out. split.
  - intros e He.
    destruct (run_shape order self src exp ctr)
      as (calls & _ & [(e' & Hrun) | (flux & var & Hrun)]);
      rewrite Hrun in *; [ | discriminate He ].
    cbn [snd source].
    rewrite lookup_insert_eq, !lookup_insert_ne by congruence. auto.
  - intros H. destruct (run_Ok_inv order self src exp ctr H) as (r & Hr & ->).
    exists r. split; [ exact Hr | ].
    unfold outcomeOf, successRecord. cbn [snd source].
    rewrite lookup_insert_eq.
    rewrite (lookup_insert_ne _ (flag (getKeys self))) by congruence.
    rewrite (lookup_insert_ne _ (err (getKeys self))) by congruence.
    rewrite lookup_insert_eq.
    rewrite (lookup_insert_ne _ (flag (getKeys self))) by congruence.
    rewrite lookup_insert_eq. auto.
Qed.

(** X7. The image is convolved at a place that depends on the centre of
    the source through the signs of the two fractional offsets only:
    the origin of the image minus the centre that the factory declared,
    minus one along an axis whose offset is below zero.  The width and
    the height passed are those of the kernel of the factory. *)
Theorem convolution_place (x y w h : Z) :
  In (EvConvolveAtAPoint x y w h)
     (trace (snd (run order self src exp ctr))) ->
  exists ix fx iy fy k0,
    positionToIndex (getMaskedImage exp) (getX ctr) X = Ok (ix, fx) /\
    positionToIndex (getMaskedImage exp) (getY ctr) Y = Ok (iy, fy) /\
    makeWarpingKernel (warpingKernelName (getControl self)) = Ok k0 /\
    x = getXI (getXY0 (getMaskedImage exp)) - getCtrX k0
        - (if (fx <? 0)%float then 1 else 0) /\
    y = getYI (getXY0 (getMaskedImage exp)) - getCtrY k0
        - (if (fy <? 0)%float then 1 else 0) /\
    w = getWidth k0 /\ h = getHeight k0.
Proof.
  intros Hin.
  destruct (warp_events_inv order self src exp ctr _ Hin)
    as (ix & fx & iy & fy & k0 & HX & HY & Hmk & Hev);
    [ right; eauto 6 | ].
  destruct Hev as [Hev | Hev]; [ discriminate Hev | ].
  injection Hev as -> -> -> ->.
  clear Hin. exists ix, fx, iy, fy, k0.
  repeat split; try assumption;
    destruct (fx <? 0)%float, (fy <? 0)%float; cbn; lia.
Qed.

End Record.

(** ** Signs, zeros and NaN in the arithmetic of lines 111-118 and
    149-150 *)

Lemma SFmul_sign prec emax sx sy x y :
  hasSign sx x -> hasSign sy y -> hasSign (xorb sx sy) (SFmul prec emax x y).
Proof.
  destruct x as [s | s | | s m e], y as [s' | s' | | s' m' e'];
    simpl; intros Hx Hy; subst; auto.
  apply binary_round_aux_sign.
Qed.

Lemma SFdiv_sign prec emax sx sy x y :
  hasSign sx x -> hasSign sy y -> hasSign (xorb sx sy) (SFdiv prec emax x y).
Proof.
  destruct x as [s | s | | s m e], y as [s' | s' | | s' m' e'];
    simpl; intros Hx Hy; subst; auto.
  destruct (SFdiv_core_binary _ _ _ _ _ _) as [[mz ez] lz].
  apply binary_round_aux_sign.
Qed.

Lemma isNaN_eq (x : float) : isNaN x -> x = nan.
Proof. intros H. apply Prim2SF_inj. rewrite H. reflexivity. Qed.

Lemma mul_nan_r (x : float) : (x * nan)%float = nan.
Proof.
  apply Prim2SF_inj. rewrite FloatAxioms.mul_spec.
  change (Prim2SF nan) with S754_nan.
  destruct (Prim2SF x); reflexivity.
Qed.

Lemma add_nan_l (x : float) : (nan + x)%float = nan.
Proof.
  apply Prim2SF_inj. rewrite FloatAxioms.add_spec.
  change (Prim2SF nan) with S754_nan. reflexivity.
Qed.

Lemma add_nan_r (x : float) : (x + nan)%float = nan.
Proof.
  apply Prim2SF_inj. rewrite FloatAxioms.add_spec.
  change (Prim2SF nan) with S754_nan.
  destruct (Prim2SF x); reflexivity.
Qed.

Lemma row_nan_acc (row : list float) :
  fold_left (fun a v => (a + v * v)%float) row nan = nan.
Proof.
  induction row as [ | v row IH]; [ reflexivity | ].
  simpl. rewrite add_nan_l. exact IH.
Qed.

Lemma row_nan_cell (row : list float) (acc : float) :
  In nan row -> fold_left (fun a v => (a + v * v)%float) row acc = nan.
Proof.
  revert acc. induction row as [ | v row IH]; intros acc Hin;
    [ destruct Hin | ].
  destruct Hin as [-> | Hin]; simpl.
  - rewrite ?mul_nan_r, add_nan_r. apply row_nan_acc.
  - apply IH. exact Hin.
Qed.

Lemma rows_nan_acc (img : KernelImage) :
  fold_left
    (fun acc row => fold_left (fun a v => (a + v * v)%float) row acc)
    img nan = nan.
Proof.
  induction img as [ | row img IH]; [ reflexivity | ].
  simpl. rewrite row_nan_acc. exact IH.
Qed.

Lemma psfSqSumOf_nan_cell (img : KernelImage) (row : list float) :
  In row img -> In nan row -> psfSqSumOf img = nan.
Proof.
  intros Hrow Hcell. unfold psfSqSumOf. generalize 0%float as acc.
  induction img as [ | row' img IH]; intros acc; [ destruct Hrow | ].
  destruct Hrow as [-> | Hrow]; simpl.
  - rewrite (row_nan_cell row acc Hcell). apply rows_nan_acc.
  - apply IH. exact Hrow.
Qed.

(** X8. A NaN in a cell of the PSF kernel image makes the sum of the
    squares a NaN, and the weight with it. *)
Theorem nan_cell_gives_nan_weight (img : KernelImage) (row : list float) :
  In row img -> In nan row ->
  psfSqSumOf img = nan /\ (1 / psfSqSumOf img)%float = nan.
Proof.
  intros Hrow Hcell.
  rewrite (psfSqSumOf_nan_cell img row Hrow Hcell). split; reflexivity.
Qed.

(** X9. The weight is never negative: for every kernel image, [1 / s]
    with [s] the sum of the squares is a NaN or has its sign bit clear
    (a positive number, a positive zero or the positive infinity). *)
Theorem weight_is_never_negative (img : KernelImage) :
  hasSign false (Prim2SF (1 / psfSqSumOf img)%float).
Proof.
  rewrite FloatAxioms.div_spec.
  apply (SFdiv_sign prec emax false false).
  - reflexivity.
  - apply psfSqSumOf_sign.
Qed.

(** X10. A kernel image without cells, or whose cells are all zeros of
    either sign, has a sum of squares equal to the positive zero, and
    the weight is the positive infinity. *)
Theorem zero_image_gives_infinite_weight (img : KernelImage) :
  Forall (Forall isZero) img ->
  psfSqSumOf img = 0%float /\ (1 / psfSqSumOf img)%float = infinity.
Proof.
  intros H.
  assert (Hs : psfSqSumOf img = 0%float).
  { unfold psfSqSumOf.
    induction H as [ | row img Hrow _ IH]; [ reflexivity | ].
    simpl.
    replace (fold_left (fun a v => (a + v * v)%float) row 0%float)
      with 0%float; [ exact IH | ].
    clear IH. induction Hrow as [ | v row Hv _ IH]; [ reflexivity | ].
    simpl. destruct Hv as [-> | ->]; exact IH. }
  rewrite Hs. split; reflexivity.
Qed.

(** ** Signs and NaN in the record *)

Section Written.
Context {afw : Afw}.
Variables (order : ArgOrder) (self : FilteredFlux) (src : SourceRecord)
          (exp : Exposure) (ctr : Point2D).

(** X11. The flux written has the sign of the convolved value and the
    variance written has the sign of the convolved variance, unless it
    is a NaN: scaling by the weight never turns a non-negative variance
    into a negative one. *)
Theorem written_values_keep_their_sign (r : Returned) (sv sq : bool) :
  returnedBy self exp ctr r ->
  hasSign sv (Prim2SF (image (r_pixel r))) ->
  hasSign sq (Prim2SF (variance (r_pixel r))) ->
  exists flux var,
    source (snd (run order self src exp ctr))
    = successRecord self src flux var /\
    hasSign sv (Prim2SF flux) /\
    hasSign sq (Prim2SF var).
Proof.
  intros Hr Hv Hq. rewrite (run_returns order self src exp ctr r Hr).
  unfold outcomeOf. cbn [snd source].
  do 2 eexists. split; [ reflexivity | ].
  assert (Hw : hasSign false (Prim2SF (r_weight r))).
  { unfold r_weight. rewrite FloatAxioms.div_spec.
    apply (SFdiv_sign prec emax false false);
      [ reflexivity | apply psfSqSumOf_sign ]. }
  rewrite !FloatAxioms.mul_spec. split.
  - rewrite <- (xorb_false_r sv). apply SFmul_sign; assumption.
  - rewrite <- (xorb_false_r sq). apply SFmul_sign; [ | assumption ].
    rewrite <- (xorb_false_r sq). apply SFmul_sign; assumption.
Qed.

(** X12. A NaN in the PSF kernel image is not an error: when the nine
    calls return, the call returns, the flux and the variance written
    are NaN and the flag reads [false]. *)
Theorem nan_psf_is_written_as_a_measurement
        (r : Returned) (row : list float) :
  returnedBy self exp ctr r ->
  In row (r_psfImage r) -> In nan row ->
  fst (run order self src exp ctr) = Ok tt /\
  source (snd (run order self src exp ctr))
  = successRecord self src nan nan /\
  source (snd (run order self src exp ctr)) !! flag (getKeys self)
  = Some (FlagV false).
Proof.
  intros Hr Hrow Hcell. rewrite (run_returns order self src exp ctr r Hr).
  unfold outcomeOf, r_weight. cbn [fst snd source].
  rewrite (psfSqSumOf_nan_cell _ _ Hrow Hcell).
  change (1 / nan)%float with nan. rewrite !mul_nan_r.
  split; [ reflexivity | ]. split; [ reflexivity | ].
  unfold successRecord. apply lookup_insert_eq.
Qed.

End Written.

(** ** The loop over the cells *)

(** X13. The two nested loops of lines 112-117 visit the cells row by
    row: the sum is the left fold over the rows put end to end, so rows
    without cells do not count and only the order of the cells
    matters. *)
Theorem psfSqSumOf_is_row_major (img : KernelImage) :
  psfSqSumOf img =
  fold_left (fun a v => (a + v * v)%float) (concat img) 0%float.
Proof.
  unfold psfSqSumOf. generalize 0%float as acc.
  induction img as [ | row img IH]; intros acc; [ reflexivity | ].
  cbn [fold_left concat]. rewrite fold_left_app. apply IH.
Qed.

(** ** The further properties on the scenarios *)

(** The PSF cannot be evaluated: the last event is the call to it. *)
Lemma exceptions_come_from_the_last_call_witness :
  let exp := mkExposure Scenario.image5x5 Scenario.failingPsf in
  let out := run (afw := Scenario.library) YThenX
                 (Scenario.algorithm "bilinear")
                 Scenario.record0 exp Scenario.atCentre in
  fst out = Throw (RuntimeError "PSF is not defined at this point") /\
  last (trace (snd out)) = Some (EvGetLocalKernel (mkPoint2D 2 2)) /\
  getLocalKernel Scenario.failingPsf (mkPoint2D 2 2)
  = Throw (RuntimeError "PSF is not defined at this point").
Proof.
  intros exp out.
  destruct (exceptions_come_from_the_last_call
              (afw := Scenario.library) YThenX (Scenario.algorithm "bilinear")
              Scenario.record0 exp Scenario.atCentre
              (RuntimeError "PSF is not defined at this point") eq_refl)
    as (ev & Hlast & Hthrown).
  split; [ reflexivity | ].
  change (last (trace (snd out)) = Some ev) in Hlast.
  assert (Hev : ev = EvGetLocalKernel (mkPoint2D 2 2)).
  { vm_compute in Hlast. injection Hlast as <-. reflexivity. }
  subst ev. split; [ reflexivity | exact Hthrown ].
Defined.

(** The PSF cannot be evaluated: the flux 42 and the variance 4 of the
    earlier measurement stay, under a flag that reads [true]. *)
Lemma slots_after_a_call_witness :
  let exp := mkExposure Scenario.image5x5 Scenario.failingPsf in
  let out := run (afw := Scenario.library) YThenX
                 (Scenario.algorithm "bilinear")
                 Scenario.record0 exp Scenario.atCentre in
  source (snd out) !! "flux.filtered.flags" = Some (FlagV true) /\
  source (snd out) !! "flux.filtered" = Some (DoubleV 42) /\
  source (snd out) !! "flux.filtered.err" = Some (DoubleV 4).
Proof.
  intros exp out.
  destruct (slots_after_a_call
              (afw := Scenario.library) YThenX (Scenario.algorithm "bilinear")
              Scenario.record0 exp Scenario.atCentre
              ltac:(discriminate) ltac:(discriminate) ltac:(discriminate))
    as [Hthrow _].
  destruct (Hthrow (RuntimeError "PSF is not defined at this point") eq_refl)
    as (Hf & Hm & He).
  split; [ exact Hf | ]. split; [ exact Hm | exact He ].
Defined.

(** A quarter of a pixel to the left: the place is (0 - 0 - 1, 0). *)
Lemma convolution_place_witness :
  let exp := mkExposure Scenario.image5x5 Scenario.unitPsf in
  let out := run (afw := Scenario.library) YThenX
                 (Scenario.algorithm "bilinear")
                 Scenario.record0 exp Scenario.leftOfCentre in
  In (EvConvolveAtAPoint (-1) 0 2 2) (trace (snd out)) /\
  exists fx fy,
    (fx <? 0)%float = true /\ (fy <? 0)%float = false /\
    -1 = 0 - 0 - (if (fx <? 0)%float then 1 else 0) /\
    0 = 0 - 0 - (if (fy <? 0)%float then 1 else 0).
Proof.
  intros exp out.
  assert (Hin : In (EvConvolveAtAPoint (-1) 0 2 2) (trace (snd out)))
    by (vm_compute; auto 12).
  split; [ exact Hin | ].
  destruct (convolution_place
              (afw := Scenario.library) YThenX (Scenario.algorithm "bilinear")
              Scenario.record0 exp Scenario.leftOfCentre _ _ _ _ Hin)
    as (ix & fx & iy & fy & k0 & HX & HY & Hmk & Hx & Hy & _).
  injection HX as <- <-. injection HY as <- <-. injection Hmk as <-.
  exists (-0.25)%float, 0%float.
  split; [ reflexivity | ]. split; [ reflexivity | ].
  split; [ exact Hx | exact Hy ].
Defined.

Lemma nan_cell_gives_nan_weight_witness :
  psfSqSumOf Cases.nanImage = nan /\
  (1 / psfSqSumOf Cases.nanImage)%float = nan.
Proof.
  apply (nan_cell_gives_nan_weight Cases.nanImage [nan; 0.25%float]);
    simpl; auto.
Defined.

Lemma zero_image_gives_infinite_weight_witness :
  psfSqSumOf Cases.zerosImage = 0%float /\
  (1 / psfSqSumOf Cases.zerosImage)%float = infinity.
Proof.
  apply (zero_image_gives_infinite_weight Cases.zerosImage).
  unfold Cases.zerosImage, isZero.
  repeat first [ apply List.Forall_cons | apply List.Forall_nil ];
    first [ left; reflexivity | right; reflexivity ].
Defined.

(** A quarter of a pixel to the right, unit PSF: the convolved value is
    0 and the convolved variance 0.625, both with the sign bit clear. *)
Lemma written_values_keep_their_sign_witness :
  let self := Scenario.algorithm "bilinear" in
  let exp := mkExposure Scenario.image5x5 Scenario.unitPsf in
  let out := run (afw := Scenario.library) YThenX self Scenario.record0 exp
                 Scenario.rightOfCentre in
  exists flux var,
    source (snd out) = successRecord self Scenario.record0 flux var /\
    hasSign false (Prim2SF flux) /\
    hasSign false (Prim2SF var).
Proof.
  intros self exp out.
  apply (written_values_keep_their_sign
           (afw := Scenario.library) YThenX self Scenario.record0 exp
           Scenario.rightOfCentre
           (mkReturned 2 0.25%float 2 0%float 2%float 2%float
                       (mkKernel (1, 1) (fun _ => Ok [[1%float]]))
                       [[1%float]] Scenario.bilinearKernel Cases.rightImage
                       (mkPixel 0%float 0.625%float))
           false false).
  - unfold returnedBy. repeat split; reflexivity.
  - reflexivity.
  - reflexivity.
Defined.

(** A PSF kernel image with a NaN cell, the source on a pixel centre:
    the call returns and the flux slot holds a NaN. *)
Lemma nan_psf_is_written_as_a_measurement_witness :
  let self := Scenario.algorithm "bilinear" in
  let exp := mkExposure Scenario.image5x5 Cases.nanPsf in
  let out := run (afw := Scenario.library) YThenX self Scenario.record0 exp
                 Scenario.atCentre in
  fst out = Ok tt /\
  source (snd out) = successRecord self Scenario.record0 nan nan /\
  source (snd out) !! "flux.filtered.flags" = Some (FlagV false).
Proof.
  intros self exp out.
  apply (nan_psf_is_written_as_a_measurement
           (afw := Scenario.library) YThenX self Scenario.record0 exp
           Scenario.atCentre
           (mkReturned 2 0%float 2 0%float 2%float 2%float
                       (mkKernel (2, 2) (fun _ => Ok Cases.nanImage))
                       Cases.nanImage Scenario.bilinearKernel
                       Cases.deltaImage (mkPixel 0%float 1%float))
           [nan; 0.25%float]).
  - unfold returnedBy. repeat split; reflexivity.
  - simpl. auto.
  - simpl. auto.
Defined.
